(** * Bounded conversation history of the referee chat agent

    A shallow embedding of [src/server.ts] (class [Chat]) and of its
    earlier revision with duplicate detection, together with the
    properties of the context window, the storage trim, message
    extraction/selection and the turn handler [onChatMessage]. *)

From Stdlib Require Import ZArith NArith Ascii String.
From stdpp Require Import gmap strings list fin_maps.

Local Open Scope Z_scope.
Local Open Scope nat_scope.

(** ** JavaScript values used by the agent *)

Module JS.

(** A JavaScript string is a sequence of UTF-16 code units. *)
Definition code_unit := N.
Definition jsstring := list code_unit.

(** String literals of the source (all of them are ASCII). *)
Definition lit (s : string) : jsstring :=
  N_of_ascii <$> list_ascii_of_string s.

(** [WhiteSpace] and [LineTerminator] code points of ECMAScript, the
    characters removed by [String.prototype.trim]. *)
Definition isWhiteSpace (c : code_unit) : bool :=
  ((c =? 0x0009) || (c =? 0x000A) || (c =? 0x000B) || (c =? 0x000C)
   || (c =? 0x000D) || (c =? 0x0020) || (c =? 0x00A0) || (c =? 0x1680)
   || ((0x2000 <=? c) && (c <=? 0x200A))
   || (c =? 0x2028) || (c =? 0x2029) || (c =? 0x202F) || (c =? 0x205F)
   || (c =? 0x3000) || (c =? 0xFEFF))%N.

Fixpoint trimStart (s : jsstring) : jsstring :=
  match s with
  | c :: s' => if isWhiteSpace c then trimStart s' else s
  | [] => []
  end.

Definition trimEnd (s : jsstring) : jsstring :=
  reverse (trimStart (reverse s)).

(** [s.trim()] *)
Definition trim (s : jsstring) : jsstring := trimEnd (trimStart s).

(** Truthiness of a string: every string but the empty one. *)
Definition truthy (s : jsstring) : bool :=
  match s with [] => false | _ :: _ => true end.

(** [a || b] on possibly-undefined strings: [a] when it is truthy, [b]
    otherwise. *)
Definition or_else (a b : option jsstring) : option jsstring :=
  match a with
  | Some s => if truthy s then a else b
  | None => b
  end.

(** [arr.slice(start)]: a negative [start] counts from the end, and the
    relative start is clamped to the bounds of the array. *)
Definition slice {A} (arr : list A) (start : Z) : list A :=
  let len := Z.of_nat (length arr) in
  let k := if (start <? 0)%Z then Z.max (len + start) 0 else Z.min start len in
  drop (Z.to_nat k) arr.

End JS.
Export JS.

(** ** Data model *)

Inductive Role := user | assistant | system.

#[global] Instance Role_eq_dec : EqDecision Role.
Proof. solve_decision. Defined.

(** [metadata?: { createdAt: string }] *)
Record Metadata := { createdAt : jsstring }.

(** [interface StoredMessage] *)
Record StoredMessage := {
  role : Role;
  content : jsstring;
  metadata : option Metadata
}.

(** A part of a UI message: its [type] tag and, when the part has one, its
    [text] field (text and reasoning parts have one; tool, file and step
    parts have none). *)
Record Part := { part_type : jsstring; part_text : option jsstring }.

(** The metadata of an inbound message is untyped in the source; only its
    optional [createdAt] field is ever read. *)
Record UIMetadata := { ui_createdAt : option jsstring }.

(** An inbound (UI) message, typed [any] in the source: a role, possibly a
    [parts] array, possibly metadata. *)
Record UIMessage := {
  msg_role : Role;
  msg_parts : option (list Part);
  msg_metadata : option UIMetadata
}.

#[global] Instance Metadata_eq_dec : EqDecision Metadata.
Proof. solve_decision. Defined.
#[global] Instance StoredMessage_eq_dec : EqDecision StoredMessage.
Proof. solve_decision. Defined.
#[global] Instance Part_eq_dec : EqDecision Part.
Proof. solve_decision. Defined.
#[global] Instance UIMetadata_eq_dec : EqDecision UIMetadata.
Proof. solve_decision. Defined.
#[global] Instance UIMessage_eq_dec : EqDecision UIMessage.
Proof. solve_decision. Defined.

(** ** Pure helpers of class [Chat]

    These methods are textually the same in [src/server.ts] and in the
    earlier revision of the file. *)

Definition MAX_MESSAGES_IN_CONTEXT : nat := 15.
Definition MAX_STORED_MESSAGES : nat := 100.

Definition getRecentMessages (messages : list StoredMessage) : list StoredMessage :=
  if bool_decide (length messages <= MAX_MESSAGES_IN_CONTEXT) then messages
  else slice messages (- Z.of_nat MAX_MESSAGES_IN_CONTEXT).

Definition trimStoredHistory (messages : list StoredMessage) : list StoredMessage :=
  if bool_decide (length messages <= MAX_STORED_MESSAGES) then messages
  else slice messages (- Z.of_nat MAX_STORED_MESSAGES).

(** The body of the [for (const part of message.parts)] loop:
    [if (part.type === "text" && part.text) content += part.text]. *)
Definition extractContent_step (content : jsstring) (part : Part) : jsstring :=
  if bool_decide (part_type part = lit "text") then
    match part_text part with
    | Some t => if truthy t then content ++ t else content
    | None => content
    end
  else content.

Definition extractContent (message : UIMessage) : jsstring :=
  let content :=
    match msg_parts message with
    | Some parts => foldl extractContent_step [] parts
    | None => []
    end in
  trim content.

(** [for (let i = incomingMessages.length - 1; i >= 0; i--)], with [n]
    standing for [i + 1]. *)
Fixpoint getLatestMessage_loop (incomingMessages : list UIMessage) (n : nat)
  : option UIMessage :=
  match n with
  | O => None
  | S i =>
      match incomingMessages !! i with
      | Some msg =>
          if bool_decide (0 < length (extractContent msg)) then Some msg
          else getLatestMessage_loop incomingMessages i
      | None => None
      end
  end.

Definition getLatestMessage (incomingMessages : list UIMessage) : option UIMessage :=
  getLatestMessage_loop incomingMessages (length incomingMessages).

Definition toUIMessage (message : StoredMessage) : UIMessage :=
  {| msg_role := role message;
     msg_parts := Some [ {| part_type := lit "text";
                            part_text := Some (content message) |} ];
     msg_metadata :=
       (fun md => {| ui_createdAt := Some (createdAt md) |}) <$> metadata message |}.

(** ** Effects of a turn

    A turn talks to three collaborators: the session's key-value storage,
    the wall clock and the language model.  The world threads the storage,
    the number of clock readings so far and the trace of the calls made;
    what the clock shows and what the model answers is the environment. *)

Inductive Event :=
| StorageGet (key : string)
| StoragePut (key : string) (value : list StoredMessage)
| StorageDelete (key : string)
| ModelCall (messages : list UIMessage).

Record World := {
  storage : gmap string (list StoredMessage);
  ticks : nat;
  trace : list Event
}.

Record Env := {
  (** the n-th evaluation of [new Date().toISOString()] *)
  clock : nat -> jsstring;
  (** the final text of [streamText] on the given context messages;
      [None] when the invocation fails, in which case [onFinish] never
      fires *)
  model : list UIMessage -> option jsstring
}.

Definition Turn (A : Type) : Type := World -> A * World.

#[global] Instance Turn_ret : MRet Turn := fun A x w => (x, w).
#[global] Instance Turn_bind : MBind Turn :=
  fun A B f m w => let '(a, w') := m w in f a w'.

Definition emit (e : Event) (w : World) : World :=
  {| storage := storage w; ticks := ticks w; trace := trace w ++ [e] |}.

(** [this.ctx.storage.get(key)] *)
Definition storage_get (key : string) : Turn (option (list StoredMessage)) :=
  fun w => (storage w !! key, emit (StorageGet key) w).

(** [this.ctx.storage.put(key, value)] *)
Definition storage_put (key : string) (value : list StoredMessage) : Turn unit :=
  fun w => (tt, emit (StoragePut key value)
                  {| storage := <[key := value]> (storage w);
                     ticks := ticks w; trace := trace w |}).

(** [this.ctx.storage.delete(key)] *)
Definition storage_delete (key : string) : Turn unit :=
  fun w => (tt, emit (StorageDelete key)
                  {| storage := delete key (storage w);
                     ticks := ticks w; trace := trace w |}).

(** [new Date().toISOString()] *)
Definition isoNow (env : Env) : Turn jsstring :=
  fun w => (clock env (ticks w),
            {| storage := storage w; ticks := S (ticks w); trace := trace w |}).

(** [streamText({ system, messages, model, onFinish })], run to
    completion; the system prompt is a constant of the source and is left
    out of the call's record, and so is the conversion of the context by
    the library's [convertToModelMessages]. *)
Definition streamText (env : Env) (messages : list UIMessage) : Turn (option jsstring) :=
  fun w => (model env messages, emit (ModelCall messages) w).

(** What [onChatMessage] hands back to the framework. *)
Record ClearAck := { ack_type : string; success : bool; messagesDeleted : nat }.

Inductive Response :=
| TextResponse (body : string) (status : nat)
| JsonResponse (body : ClearAck) (status : nat)
| StreamResponse (text : option jsstring).

Definition HISTORY_KEY : string := "conversation_history".

(** No write reached the storage: the trace holds neither a put nor a
    delete. *)
Definition is_write (e : Event) : bool :=
  match e with StoragePut _ _ | StorageDelete _ => true | _ => false end.
Definition is_model_call (e : Event) : bool :=
  match e with ModelCall _ => true | _ => false end.

(** The events a computation adds to the trace of [w]. *)
Definition new_events (w w' : World) : list Event :=
  drop (length (trace w)) (trace w').

(** The persisted log as a reader sees it: [get(key) || []]. *)
Definition stored_log (w : World) : list StoredMessage :=
  default [] (storage w !! HISTORY_KEY).

(** [toStoredMessage(message, timestamp?)].  The clock is read only when
    neither [timestamp] nor [message.metadata?.createdAt] is truthy. *)
Definition toStoredMessage (env : Env) (message : UIMessage)
    (timestamp : option jsstring) : Turn (option StoredMessage) :=
  let content := extractContent message in
  if negb (truthy content) || bool_decide (length content = 0) then mret None
  else
    stamp ← match or_else timestamp (msg_metadata message ≫= ui_createdAt) with
            | Some s => if truthy s then mret s else isoNow env
            | None => isoNow env
            end;
    mret (Some {| role := msg_role message;
                  content := content;
                  metadata := Some {| createdAt := stamp |} |}).

(** [{ ...latestMessage, metadata: { ...latestMessage.metadata, createdAt: now } }] *)
Definition withTimestamp (latestMessage : UIMessage) (now : jsstring) : UIMessage :=
  {| msg_role := msg_role latestMessage;
     msg_parts := msg_parts latestMessage;
     msg_metadata := Some {| ui_createdAt := Some now |} |}.

(** The [onFinish] callback handed to [streamText]; it reads the same in
    both revisions. *)
Definition onFinish (env : Env) (storedHistory : list StoredMessage)
    (userMessageWithTimestamp : UIMessage) (now : jsstring)
    (assistantMessage : jsstring) : Turn unit :=
  converted ← toStoredMessage env userMessageWithTimestamp (Some now);
  match converted with
  | None => mret tt
  | Some userStoredMessage =>
      finishedAt ← isoNow env;
      let assistantMessageObj :=
        {| role := assistant; content := assistantMessage;
           metadata := Some {| createdAt := finishedAt |} |} in
      let updatedHistory :=
        storedHistory ++ [userStoredMessage; assistantMessageObj] in
      let trimmedHistory := trimStoredHistory updatedHistory in
      storage_put HISTORY_KEY trimmedHistory
  end.

(** Everything after the guards of [onChatMessage]: stamp the user
    message, window the history, call the model and, once it finishes,
    persist the exchange. *)
Definition respond (env : Env) (storedHistory : list StoredMessage)
    (latestMessage : UIMessage) : Turn Response :=
  now ← isoNow env;
  let userMessageWithTimestamp := withTimestamp latestMessage now in
  let recentHistory := getRecentMessages storedHistory in
  let recentHistoryAsUI := toUIMessage <$> recentHistory in
  let contextMessages := recentHistoryAsUI ++ [userMessageWithTimestamp] in
  finished ← streamText env contextMessages;
  match finished with
  | Some assistantMessage =>
      _ ← onFinish env storedHistory userMessageWithTimestamp now assistantMessage;
      mret (StreamResponse (Some assistantMessage))
  | None => mret (StreamResponse None)
  end.

(** ** The turn handler of [src/server.ts] *)

Module Chat.
Section WithEnv.
Context (env : Env).

Definition onChatMessage (messages : list UIMessage) : Turn Response :=
  stored ← storage_get HISTORY_KEY;
  let storedHistory := default [] stored in
  match getLatestMessage messages with
  | None => mret (TextResponse "No valid message" 200)
  | Some latestMessage =>
      let messageContent := extractContent latestMessage in
      let messageRole := msg_role latestMessage in
      if bool_decide (messageRole = system)
         && bool_decide (messageContent = lit "(clear requested)")
      then
        let count := length storedHistory in
        _ ← storage_delete HISTORY_KEY;
        mret (JsonResponse
                {| ack_type := "clear"; success := true;
                   messagesDeleted := count |} 200)
      else if bool_decide (messageRole ≠ user)
      then mret (TextResponse "Non-user message ignored" 200)
      else respond env storedHistory latestMessage
  end.

End WithEnv.
End Chat.

(** ** The earlier revision of the handler, with duplicate detection *)

Module ChatDedup.
Section WithEnv.
Context (env : Env).

(** As [getLatestMessage], but only messages of role [user] qualify. *)
Fixpoint getLatestUserMessage_loop (incomingMessages : list UIMessage) (n : nat)
  : option UIMessage :=
  match n with
  | O => None
  | S i =>
      match incomingMessages !! i with
      | Some msg =>
          if bool_decide (msg_role msg = user)
             && bool_decide (0 < length (extractContent msg))
          then Some msg
          else getLatestUserMessage_loop incomingMessages i
      | None => None
      end
  end.

Definition getLatestUserMessage (incomingMessages : list UIMessage)
  : option UIMessage :=
  getLatestUserMessage_loop incomingMessages (length incomingMessages).

(** [storedHistory.some(msg => msg.role === "user" && msg.content === text)] *)
Definition isDuplicate (storedHistory : list StoredMessage)
    (userMessageContent : jsstring) : bool :=
  existsb (fun msg => bool_decide (role msg = user)
                      && bool_decide (content msg = userMessageContent))
          storedHistory.

Definition onChatMessage (messages : list UIMessage) : Turn Response :=
  stored ← storage_get HISTORY_KEY;
  let storedHistory := default [] stored in
  match getLatestUserMessage messages with
  | None => mret (TextResponse "No valid message" 200)
  | Some latestUserMessage =>
      let userMessageContent := extractContent latestUserMessage in
      if isDuplicate storedHistory userMessageContent
      then mret (TextResponse "Duplicate message" 200)
      else respond env storedHistory latestUserMessage
  end.

End WithEnv.
End ChatDedup.

(** ** The first revision of the handler: no storage, no window *)

(** [arr.map(f)] with an effectful callback: the elements are visited from
    index 0 upwards. *)
Fixpoint mapTurn {A B : Type} (f : A -> Turn B) (arr : list A) : Turn (list B) :=
  match arr with
  | [] => mret []
  | x :: rest =>
      y ← f x;
      ys ← mapTurn f rest;
      mret (y :: ys)
  end.

Module ChatFirst.
Section WithEnv.
Context (env : Env).

(** The callback of [this.messages.map]: a message whose metadata has a
    truthy [createdAt] is kept, any other gets the current time. *)
Definition assignCreatedAt (m : UIMessage) : Turn UIMessage :=
  let assign := now ← isoNow env; mret (withTimestamp m now) in
  match msg_metadata m ≫= ui_createdAt with
  | Some s => if truthy s then mret m else assign
  | None => assign
  end.

(** [onChatMessage]: the result pairs the new value of [this.messages]
    with the response. *)
Definition onChatMessage (messages : list UIMessage)
  : Turn (list UIMessage * Response) :=
  stamped ← mapTurn assignCreatedAt messages;
  finished ← streamText env stamped;
  mret (stamped, StreamResponse finished).

End WithEnv.
End ChatFirst.

(** * Vocabulary of the statements and sample data *)

(** ** Text parts and selection tests *)

(** A string of whitespace only. *)
Definition allWhiteSpace (s : jsstring) : Prop :=
  Forall (fun c => isWhiteSpace c = true) s.

(** A text-typed part. *)
Definition isTextPart (p : Part) : Prop := part_type p = lit "text".

#[global] Instance isTextPart_dec p : Decision (isTextPart p).
Proof. unfold isTextPart. apply _. Defined.

(** The reading of the specification: the texts of the text-typed parts,
    in their order, concatenated. *)
Definition textPartsConcat (message : UIMessage) : jsstring :=
  mjoin ((fun p => default [] (part_text p))
           <$> filter isTextPart (default [] (msg_parts message))).

(** The test of the loop of [getLatestMessage]: [content.length > 0]. *)
Definition hasText (msg : UIMessage) : bool :=
  bool_decide (0 < length (extractContent msg)).

(** The test of the loop of [getLatestUserMessage]. *)
Definition isUserWithText (msg : UIMessage) : bool :=
  bool_decide (msg_role msg = user) && hasText msg.

(** ** What a turn writes *)

(** The stored form of the inbound user message and of the reply. *)
Definition userEntry (m : UIMessage) (stamp : jsstring) : StoredMessage :=
  {| role := msg_role m; content := extractContent m;
     metadata := Some {| createdAt := stamp |} |}.

Definition assistantEntry (text stamp : jsstring) : StoredMessage :=
  {| role := assistant; content := text;
     metadata := Some {| createdAt := stamp |} |}.

(** The context handed to the model: the window of the history, then the
    stamped inbound message. *)
Definition contextFor (env : Env) (hist : list StoredMessage) (m : UIMessage)
    (w : World) : list UIMessage :=
  (toUIMessage <$> getRecentMessages hist) ++ [withTimestamp m (clock env (ticks w))].

(** A turn that got as far as calling the model with the selected user
    message [m]: either the model failed and nothing was written, or the
    exchange was appended, trimmed and put back. *)
Definition responded (env : Env) (w w' : World) (m : UIMessage) : Prop :=
  let w0 := emit (StorageGet HISTORY_KEY) w in
  let ctx := contextFor env (stored_log w) m w0 in
  msg_role m = user /\ extractContent m <> [] /\
  ((model env ctx = None /\ storage w' = storage w /\
    new_events w w' = [StorageGet HISTORY_KEY; ModelCall ctx]) \/
   (exists text stamp finishedAt,
      let written :=
        trimStoredHistory
          (stored_log w ++ [userEntry m stamp; assistantEntry text finishedAt]) in
      model env ctx = Some text /\
      storage w' = <[HISTORY_KEY := written]> (storage w) /\
      new_events w w' =
        [StorageGet HISTORY_KEY; ModelCall ctx; StoragePut HISTORY_KEY written])).

(** ** Logs and runs of turns *)

(** A text without whitespace at either end. *)
Definition trimmedText (s : jsstring) : Prop :=
  (forall c, head s = Some c -> isWhiteSpace c = false) /\
  (forall c, last s = Some c -> isWhiteSpace c = false).

(** Every user entry of the log carries a non-empty, trimmed text. *)
Definition userEntriesHaveText (log : list StoredMessage) : Prop :=
  Forall (fun sm => role sm = user ->
                    content sm <> [] /\ trim (content sm) = content sm) log.

(** The handler called once per inbound batch, in order. *)
Definition run_turns (handler : list UIMessage -> Turn Response)
    (batches : list (list UIMessage)) : Turn (list Response) :=
  mapTurn handler batches.

(** A message carries a truthy [createdAt]. *)
Definition hasCreatedAt (m : UIMessage) : Prop :=
  exists s, msg_metadata m ≫= ui_createdAt = Some s /\ s <> [].

#[global] Instance hasCreatedAt_dec m : Decision (hasCreatedAt m).
Proof.
  unfold hasCreatedAt.
  destruct (msg_metadata m ≫= ui_createdAt) as [[| c s] |] eqn:Hmd.
  - right. intros (s & Heq & Hs). unfold jsstring, code_unit in *. congruence.
  - left. by exists (c :: s).
  - right. intros (s & Heq & _). unfold jsstring, code_unit in *. congruence.
Defined.

(** How a message of the first revision comes out of the stamping that
    starts at clock reading [lo] and ends before [hi]. *)
Definition stampedFrom (env : Env) (lo hi : nat) (m s : UIMessage) : Prop :=
  (hasCreatedAt m /\ s = m) \/
  (~ hasCreatedAt m /\
   exists n, lo <= n < hi /\ s = withTimestamp m (clock env n)).

(** ** Sample data *)

Definition ISO_SAMPLE : jsstring := lit "2025-01-01T00:00:00.000Z".

(** A stored log of [n] distinguishable entries, alternating user and
    assistant, the [i]-th carrying the code unit [0x100 + i]. *)
Definition numbered_entry (i : nat) : StoredMessage :=
  {| role := if Nat.even i then user else assistant;
     content := lit "m" ++ [N.of_nat (256 + i)];
     metadata := Some {| createdAt := ISO_SAMPLE |} |}.

Definition numbered_log (n : nat) : list StoredMessage :=
  numbered_entry <$> seq 0 n.

Definition textPart (s : string) : Part :=
  {| part_type := lit "text"; part_text := Some (lit s) |}.

(** An inbound message [r:"s"] with a single text part. *)
Definition inbound (r : Role) (s : string) : UIMessage :=
  {| msg_role := r; msg_parts := Some [textPart s]; msg_metadata := None |}.

Definition filePart : Part :=
  {| part_type := lit "file"; part_text := None |}.

Definition reasoningPart (s : string) : Part :=
  {| part_type := lit "reasoning"; part_text := Some (lit s) |}.

Definition mixed_message : UIMessage :=
  {| msg_role := user;
     msg_parts := Some [textPart "Was that "; filePart;
                        reasoningPart "hidden"; textPart "offside? "];
     msg_metadata := None |}.

Definition example_batch : list UIMessage :=
  [inbound system "hi"; inbound user EmptyString; inbound user "real question"].

Definition empty_batch : list UIMessage :=
  [inbound user EmptyString; inbound system "  ";
   {| msg_role := user; msg_parts := None; msg_metadata := None |};
   {| msg_role := assistant; msg_parts := Some [filePart]; msg_metadata := None |}].

Definition penalty_question : UIMessage := inbound user "Is it a penalty?".

Definition sample_env : Env :=
  {| clock := fun n => lit "2025-06-01T12:00:0" ++ [N.of_nat (48 + n)] ++ lit ".000Z";
     model := fun _ => Some (lit "Direct free kick.") |}.

Definition empty_world : World :=
  {| storage := ∅; ticks := 0; trace := [] |}.

Definition world_with (log : list StoredMessage) : World :=
  {| storage := {[ HISTORY_KEY := log ]}; ticks := 0; trace := [] |}.

Definition log_after_turn_on_120 : list StoredMessage :=
  stored_log (Chat.onChatMessage sample_env [penalty_question]
                (world_with (numbered_log 120))).2.

Definition split_clear_message : UIMessage :=
  {| msg_role := system;
     msg_parts := Some [textPart "  (clear "; filePart; textPart "requested) "];
     msg_metadata := None |}.

Definition blank_message : UIMessage :=
  {| msg_role := user;
     msg_parts := Some [textPart "  "; reasoningPart "thinking"; textPart " "];
     msg_metadata := None |}.

Definition stamped_question : UIMessage :=
  withTimestamp penalty_question ISO_SAMPLE.

(** * Properties *)

(** ** Arrays and strings *)

Section SliceFacts.
Context {A : Type}.
Implicit Types (arr : list A) (k : nat).

(** A negative start keeps the last [k] elements. *)
Lemma slice_negative arr k :
  0 < k -> slice arr (- Z.of_nat k) = drop (length arr - k) arr.
Proof.
  intros Hk. unfold slice.
  destruct (Z.ltb_spec (- Z.of_nat k) 0) as [_ | Hge]; [| lia].
  f_equal. lia.
Qed.

Lemma slice_negative_length arr k :
  0 < k -> k <= length arr -> length (slice arr (- Z.of_nat k)) = k.
Proof.
  intros Hk Hle. rewrite slice_negative by done.
  rewrite length_drop. lia.
Qed.

Lemma slice_negative_suffix arr k :
  0 < k -> slice arr (- Z.of_nat k) `suffix_of` arr.
Proof. intros Hk. rewrite slice_negative by done. apply suffix_drop. Qed.
End SliceFacts.

(** Trimming only takes whitespace away, and only at the two ends. *)
Lemma trimStart_split (s : jsstring) :
  exists pre, s = pre ++ trimStart s /\ allWhiteSpace pre.
Proof.
  induction s as [| c s (pre & Hs & Hpre)]; simpl.
  - exists []. by split; [| constructor].
  - destruct (isWhiteSpace c) eqn:Hc.
    + exists (c :: pre). simpl. split; [by rewrite <- Hs |].
      by constructor.
    + exists []. by split; [| constructor].
Qed.

Lemma trimEnd_split (s : jsstring) :
  exists post, s = trimEnd s ++ post /\ allWhiteSpace post.
Proof.
  destruct (trimStart_split (reverse s)) as (pre & Hs & Hpre).
  exists (reverse pre). split.
  - unfold trimEnd. rewrite <- reverse_app, <- Hs. by rewrite reverse_involutive.
  - unfold allWhiteSpace. by rewrite Forall_reverse.
Qed.

Lemma trim_split (s : jsstring) :
  exists pre post,
    s = pre ++ trim s ++ post /\ allWhiteSpace pre /\ allWhiteSpace post.
Proof.
  destruct (trimStart_split s) as (pre & Hs & Hpre).
  destruct (trimEnd_split (trimStart s)) as (post & Ht & Hpost).
  exists pre, post. unfold trim. by rewrite <- Ht.
Qed.

(** ** Window and trim *)

Lemma getRecentMessages_short (log : list StoredMessage) :
  length log <= MAX_MESSAGES_IN_CONTEXT -> getRecentMessages log = log.
Proof. intros H. unfold getRecentMessages. by rewrite bool_decide_eq_true_2. Qed.

Lemma getRecentMessages_long (log : list StoredMessage) :
  MAX_MESSAGES_IN_CONTEXT < length log ->
  getRecentMessages log = drop (length log - MAX_MESSAGES_IN_CONTEXT) log.
Proof.
  intros H. unfold getRecentMessages.
  rewrite bool_decide_eq_false_2 by lia.
  apply slice_negative. unfold MAX_MESSAGES_IN_CONTEXT. lia.
Qed.

Lemma trimStoredHistory_short (log : list StoredMessage) :
  length log <= MAX_STORED_MESSAGES -> trimStoredHistory log = log.
Proof. intros H. unfold trimStoredHistory. by rewrite bool_decide_eq_true_2. Qed.

Lemma trimStoredHistory_long (log : list StoredMessage) :
  MAX_STORED_MESSAGES < length log ->
  trimStoredHistory log = drop (length log - MAX_STORED_MESSAGES) log.
Proof.
  intros H. unfold trimStoredHistory.
  rewrite bool_decide_eq_false_2 by lia.
  apply slice_negative. unfold MAX_STORED_MESSAGES. lia.
Qed.

Lemma trimStoredHistory_length (log : list StoredMessage) :
  length (trimStoredHistory log) <= MAX_STORED_MESSAGES.
Proof.
  destruct (decide (length log <= MAX_STORED_MESSAGES)) as [H | H].
  - by rewrite trimStoredHistory_short.
  - rewrite trimStoredHistory_long, length_drop by lia. lia.
Qed.

Lemma trimStoredHistory_suffix (log : list StoredMessage) :
  trimStoredHistory log `suffix_of` log.
Proof.
  destruct (decide (length log <= MAX_STORED_MESSAGES)) as [H | H].
  - by rewrite trimStoredHistory_short.
  - rewrite trimStoredHistory_long by lia. apply suffix_drop.
Qed.

(** C2. Below or at the cap (15 for the context window, 100 for the
    storage) [getRecentMessages] and [trimStoredHistory] return the log
    unchanged; above the cap the result has exactly cap entries and is the
    suffix of the log of that length, in the original order. *)
Theorem window_and_trim_identity_or_suffix (log : list StoredMessage) :
  (length log <= 15 -> getRecentMessages log = log) /\
  (length log <= 100 -> trimStoredHistory log = log) /\
  (15 < length log ->
     length (getRecentMessages log) = 15 /\
     getRecentMessages log = drop (length log - 15) log /\
     getRecentMessages log `suffix_of` log) /\
  (100 < length log ->
     length (trimStoredHistory log) = 100 /\
     trimStoredHistory log = drop (length log - 100) log /\
     trimStoredHistory log `suffix_of` log).
Proof.
  repeat split.
  - apply getRecentMessages_short.
  - apply trimStoredHistory_short.
  - rewrite getRecentMessages_long, length_drop by done.
    unfold MAX_MESSAGES_IN_CONTEXT. lia.
  - by apply getRecentMessages_long.
  - rewrite getRecentMessages_long by done. apply suffix_drop.
  - rewrite trimStoredHistory_long, length_drop by done.
    unfold MAX_STORED_MESSAGES. lia.
  - by apply trimStoredHistory_long.
  - apply trimStoredHistory_suffix.
Qed.

Lemma window_and_trim_witness :
  getRecentMessages (numbered_log 3) = numbered_log 3 /\
  trimStoredHistory (numbered_log 3) = numbered_log 3 /\
  length (getRecentMessages (numbered_log 120)) = 15 /\
  length (trimStoredHistory (numbered_log 120)) = 100.
Proof.
  destruct (window_and_trim_identity_or_suffix (numbered_log 3)) as (H1 & H2 & _).
  destruct (window_and_trim_identity_or_suffix (numbered_log 120)) as (_ & _ & H3 & H4).
  split; [apply H1; vm_compute; lia |].
  split; [apply H2; vm_compute; lia |].
  split; [apply H3; vm_compute; lia | apply H4; vm_compute; lia].
Defined.

(** ** Text extraction *)

Lemma extractContent_loop (parts : list Part) (acc : jsstring) :
  foldl extractContent_step acc parts =
  acc ++ mjoin ((fun p => default [] (part_text p)) <$> filter isTextPart parts).
Proof.
  revert acc. induction parts as [| p parts IH]; intros acc; simpl.
  - by rewrite app_nil_r.
  - rewrite IH. unfold extractContent_step, filter; simpl.
    fold (filter isTextPart parts).
    destruct (decide (isTextPart p)) as [Hp | Hp].
    + rewrite bool_decide_eq_true_2 by exact Hp. simpl.
      destruct (part_text p) as [[| c t] |]; simpl;
        rewrite <- ?app_assoc; reflexivity.
    + rewrite bool_decide_eq_false_2 by exact Hp. reflexivity.
Qed.

Lemma extractContent_trim_concat (message : UIMessage) :
  extractContent message = trim (textPartsConcat message).
Proof.
  unfold extractContent, textPartsConcat.
  destruct (msg_parts message) as [parts |]; simpl; [| reflexivity].
  by rewrite extractContent_loop.
Qed.

(** C6 (amended). A message without text-typed parts extracts to the empty
    string; in general the result is the whitespace-trimmed concatenation
    of the text-typed parts only, in their original order: it differs from
    that concatenation by leading and trailing whitespace alone, and it is
    the concatenation itself whenever trimming leaves it unchanged. *)
Theorem extractContent_trimmed_text_parts (message : UIMessage) :
  (Forall (fun p => ~ isTextPart p) (default [] (msg_parts message)) ->
     extractContent message = []) /\
  extractContent message = trim (textPartsConcat message) /\
  (exists pre post,
     textPartsConcat message = pre ++ extractContent message ++ post /\
     allWhiteSpace pre /\ allWhiteSpace post) /\
  (trim (textPartsConcat message) = textPartsConcat message ->
     extractContent message = textPartsConcat message).
Proof.
  split; [| split; [| split]]; [| | rewrite extractContent_trim_concat; apply trim_split |].
  - intros Hnone. rewrite extractContent_trim_concat. unfold textPartsConcat.
    replace (filter isTextPart (default [] (msg_parts message))) with (@nil Part);
      [reflexivity |].
    symmetry. induction Hnone as [| p ps Hp _ IH]; [reflexivity |].
    rewrite filter_cons_False by exact Hp. exact IH.
  - apply extractContent_trim_concat.
  - intros Hid. by rewrite extractContent_trim_concat.
Qed.

Lemma extractContent_trimmed_text_parts_witness :
  extractContent {| msg_role := user; msg_parts := Some [filePart];
                    msg_metadata := None |} = [] /\
  extractContent (inbound user "a b") = lit "a b".
Proof.
  split.
  - destruct (extractContent_trimmed_text_parts
                {| msg_role := user; msg_parts := Some [filePart];
                   msg_metadata := None |}) as (Hnone & _).
    apply Hnone. repeat constructor. vm_compute. discriminate.
  - destruct (extractContent_trimmed_text_parts (inbound user "a b"))
      as (_ & _ & _ & Hexact).
    apply Hexact. vm_compute. reflexivity.
Defined.

(** C6 as worded fails: the trailing blank of the last text part is part of
    the concatenation but not of the extracted text. *)
Lemma extractContent_not_plain_concat :
  textPartsConcat mixed_message = lit "Was that offside? " /\
  extractContent mixed_message = lit "Was that offside?" /\
  extractContent mixed_message <> textPartsConcat mixed_message.
Proof. vm_compute. repeat split; discriminate. Qed.

(** ** Selecting the latest inbound message *)

Lemma hasText_true (msg : UIMessage) :
  hasText msg = true <-> extractContent msg <> [].
Proof.
  unfold hasText. rewrite bool_decide_eq_true.
  destruct (extractContent msg); simpl; split; intros; (lia || congruence).
Qed.

Lemma hasText_false (msg : UIMessage) :
  hasText msg = false <-> extractContent msg = [].
Proof.
  unfold hasText. rewrite bool_decide_eq_false.
  destruct (extractContent msg); simpl; split; intros; (lia || congruence).
Qed.

Lemma getLatestMessage_loop_prefix (l l' : list UIMessage) (n : nat) :
  n <= length l ->
  getLatestMessage_loop (l ++ l') n = getLatestMessage_loop l n.
Proof.
  induction n as [| i IH]; intros Hn; simpl; [reflexivity |].
  rewrite lookup_app_l by lia.
  destruct (l !! i); [| reflexivity].
  case_bool_decide; [reflexivity | apply IH; lia].
Qed.

Lemma getLatestMessage_snoc (l : list UIMessage) (m : UIMessage) :
  getLatestMessage (l ++ [m]) = if hasText m then Some m else getLatestMessage l.
Proof.
  unfold getLatestMessage. rewrite length_app, Nat.add_1_r. simpl.
  rewrite list_lookup_middle by reflexivity. fold (hasText m).
  destruct (hasText m); [reflexivity |].
  by apply getLatestMessage_loop_prefix.
Qed.

Lemma getLatestUserMessage_loop_prefix (l l' : list UIMessage) (n : nat) :
  n <= length l ->
  ChatDedup.getLatestUserMessage_loop (l ++ l') n =
  ChatDedup.getLatestUserMessage_loop l n.
Proof.
  induction n as [| i IH]; intros Hn; simpl; [reflexivity |].
  rewrite lookup_app_l by lia.
  destruct (l !! i); [| reflexivity].
  destruct (_ && _); [reflexivity | apply IH; lia].
Qed.

Lemma getLatestUserMessage_snoc (l : list UIMessage) (m : UIMessage) :
  ChatDedup.getLatestUserMessage (l ++ [m]) =
  if isUserWithText m then Some m else ChatDedup.getLatestUserMessage l.
Proof.
  unfold ChatDedup.getLatestUserMessage. rewrite length_app, Nat.add_1_r. simpl.
  rewrite list_lookup_middle by reflexivity.
  fold (hasText m). fold (isUserWithText m).
  destruct (isUserWithText m); [reflexivity |].
  by apply getLatestUserMessage_loop_prefix.
Qed.

(** A selector that tries the last element first and otherwise recurses
    on the rest is a search from the newest element backwards. *)
Section NewestFirst.
Context (P : UIMessage -> bool) (select : list UIMessage -> option UIMessage).
Hypothesis select_nil : select [] = None.
Hypothesis select_snoc :
  forall l m, select (l ++ [m]) = if P m then Some m else select l.

Lemma select_find (msgs : list UIMessage) :
  select msgs = List.find P (reverse msgs).
Proof.
  induction msgs as [| m l IH] using rev_ind; [exact select_nil |].
  rewrite select_snoc, reverse_snoc. simpl.
  destruct (P m); [reflexivity | exact IH].
Qed.

Lemma select_Some (msgs : list UIMessage) (m : UIMessage) :
  select msgs = Some m <->
  exists older newer,
    msgs = older ++ m :: newer /\ P m = true /\
    Forall (fun m' => P m' = false) newer.
Proof.
  induction msgs as [| x l IH] using rev_ind.
  - rewrite select_nil. split; [discriminate |].
    intros (older & newer & Heq & _). by destruct older.
  - rewrite select_snoc. destruct (P x) eqn:Hx.
    + split.
      * intros [= ->]. exists l, []. by repeat split.
      * intros (older & newer & Heq & Hm & Hnewer).
        destruct newer as [| y newer _] using rev_ind.
        -- apply app_inj_tail in Heq as [_ ->]. reflexivity.
        -- rewrite app_comm_cons, app_assoc in Heq.
           apply app_inj_tail in Heq as [_ ->].
           apply Forall_app in Hnewer as [_ Hy].
           rewrite Forall_singleton in Hy. congruence.
    + rewrite IH. split.
      * intros (older & newer & -> & Hm & Hnewer).
        exists older, (newer ++ [x]). rewrite <- app_assoc. simpl.
        repeat split; [done |]. apply Forall_app. split; [done |].
        by apply Forall_singleton.
      * intros (older & newer & Heq & Hm & Hnewer).
        destruct newer as [| y newer _] using rev_ind.
        -- apply app_inj_tail in Heq as [_ ->]. congruence.
        -- rewrite app_comm_cons, app_assoc in Heq.
           apply app_inj_tail in Heq as [-> ->].
           apply Forall_app in Hnewer as [Hnewer _].
           exists older, newer. by repeat split.
Qed.

Lemma select_None (msgs : list UIMessage) :
  select msgs = None <-> Forall (fun m => P m = false) msgs.
Proof.
  induction msgs as [| x l IH] using rev_ind.
  - by split.
  - rewrite select_snoc, Forall_app, Forall_singleton.
    destruct (P x); [| rewrite IH]; intuition congruence.
Qed.
End NewestFirst.

(** C7. [getLatestMessage] scans the inbound batch from the most recent
    message to the oldest and returns the first one whose extracted text is
    non-empty ([getLatestUserMessage] also wants role [user]); it returns
    none exactly when no message qualifies.  On the batch made of a
    system "hi", an empty user message and a user "real question", in that
    order, both return the "real question" message, and on a batch without
    text both return none. *)
Theorem getLatestMessage_newest_with_text :
  (forall msgs, getLatestMessage msgs = List.find hasText (reverse msgs)) /\
  (forall msgs,
     ChatDedup.getLatestUserMessage msgs =
     List.find isUserWithText (reverse msgs)) /\
  (forall msgs m,
     getLatestMessage msgs = Some m <->
     exists older newer,
       msgs = older ++ m :: newer /\ extractContent m <> [] /\
       Forall (fun m' => extractContent m' = []) newer) /\
  (forall msgs m,
     ChatDedup.getLatestUserMessage msgs = Some m <->
     exists older newer,
       msgs = older ++ m :: newer /\
       (msg_role m = user /\ extractContent m <> []) /\
       Forall (fun m' => ~ (msg_role m' = user /\ extractContent m' <> [])) newer) /\
  (forall msgs,
     getLatestMessage msgs = None <->
     Forall (fun m => extractContent m = []) msgs) /\
  (forall msgs,
     ChatDedup.getLatestUserMessage msgs = None <->
     Forall (fun m => ~ (msg_role m = user /\ extractContent m <> [])) msgs) /\
  getLatestMessage example_batch = Some (inbound user "real question") /\
  ChatDedup.getLatestUserMessage example_batch = Some (inbound user "real question") /\
  getLatestMessage empty_batch = None /\
  ChatDedup.getLatestUserMessage empty_batch = None.
Proof.
  assert (Huser : forall m,
             isUserWithText m = true <->
             msg_role m = user /\ extractContent m <> []).
  { intros m. unfold isUserWithText.
    by rewrite andb_true_iff, bool_decide_eq_true, hasText_true. }
  assert (Hnouser : forall m,
             isUserWithText m = false <->
             ~ (msg_role m = user /\ extractContent m <> [])).
  { intros m. rewrite <- Huser. by destruct (isUserWithText m). }
  repeat apply conj; try reflexivity.
  - intros msgs. apply select_find; [reflexivity | apply getLatestMessage_snoc].
  - intros msgs.
    apply select_find; [reflexivity | apply getLatestUserMessage_snoc].
  - intros msgs m.
    rewrite (select_Some hasText getLatestMessage eq_refl getLatestMessage_snoc).
    setoid_rewrite hasText_true.
    by setoid_rewrite (Forall_iff _ _ _ hasText_false).
  - intros msgs m.
    rewrite (select_Some isUserWithText ChatDedup.getLatestUserMessage
               eq_refl getLatestUserMessage_snoc).
    setoid_rewrite Huser.
    by setoid_rewrite (Forall_iff _ _ _ Hnouser).
  - intros msgs.
    rewrite (select_None hasText getLatestMessage eq_refl getLatestMessage_snoc).
    apply Forall_iff, hasText_false.
  - intros msgs.
    rewrite (select_None isUserWithText ChatDedup.getLatestUserMessage
               eq_refl getLatestUserMessage_snoc).
    apply Forall_iff, Hnouser.
Qed.

(** ** Conversion between stored and UI messages *)

Lemma truthy_true (s : jsstring) : truthy s = true <-> s <> [].
Proof. destruct s; simpl; split; congruence. Qed.

Lemma extractContent_withTimestamp (m : UIMessage) (now : jsstring) :
  extractContent (withTimestamp m now) = extractContent m.
Proof. reflexivity. Qed.

Lemma extractContent_toUIMessage (m : StoredMessage) :
  extractContent (toUIMessage m) = trim (content m).
Proof.
  unfold extractContent, toUIMessage, extractContent_step. simpl.
  by destruct (content m).
Qed.

(** A message with extractable text always converts: the result carries
    its role and its text, whatever time stamp is chosen. *)
Lemma toStoredMessage_with_text (env : Env) (m : UIMessage)
    (timestamp : option jsstring) (w : World) :
  extractContent m <> [] ->
  exists stamp w',
    toStoredMessage env m timestamp w =
      (Some {| role := msg_role m; content := extractContent m;
               metadata := Some {| createdAt := stamp |} |}, w') /\
    storage w' = storage w /\ trace w' = trace w /\
    (forall s, timestamp = Some s -> s <> [] -> stamp = s /\ w' = w).
Proof.
  intros Htext. unfold toStoredMessage.
  destruct (extractContent m) as [| c s] eqn:Hc; [done |].
  simpl. unfold mbind, Turn_bind, mret, Turn_ret, isoNow.
  destruct (or_else _ _) as [o |] eqn:Hor;
    [destruct (truthy o) eqn:Ho |]; eexists _, _;
    (split; [reflexivity |]); simpl;
    (split; [reflexivity | split; [reflexivity |]]);
    unfold or_else in Hor;
    intros s' -> Hs'; apply truthy_true in Hs'; rewrite Hs' in Hor;
    split; congruence.
Qed.

(** C9. Round trip: a stored message whose content is non-empty and
    already trimmed and whose metadata carries a createdAt time stamp (a
    non-empty string) comes back from [toUIMessage] then [toStoredMessage]
    (no explicit time stamp) as a non-null stored message with the same
    role, content and createdAt; the clock is not consulted. *)
Theorem toStoredMessage_toUIMessage_roundtrip
    (env : Env) (w : World) (m : StoredMessage) (ts : jsstring) :
  content m <> [] ->
  trim (content m) = content m ->
  metadata m = Some {| createdAt := ts |} ->
  ts <> [] ->
  exists m',
    toStoredMessage env (toUIMessage m) None w = (Some m', w) /\
    role m' = role m /\
    content m' = content m /\
    createdAt <$> metadata m' = Some ts /\
    m' = m.
Proof.
  intros Hne Htrim Hmd Hts. exists m.
  split; [| by rewrite Hmd].
  unfold toStoredMessage. rewrite extractContent_toUIMessage, Htrim.
  destruct m as [r c md]. simpl in *. subst md.
  destruct c as [| c0 c]; [done |]. destruct ts as [| t0 ts]; [done |].
  reflexivity.
Qed.

Lemma toStoredMessage_toUIMessage_roundtrip_witness :
  exists m',
    toStoredMessage sample_env (toUIMessage (numbered_entry 0)) None empty_world
      = (Some m', empty_world) /\
    role m' = user /\
    content m' = content (numbered_entry 0) /\
    createdAt <$> metadata m' = Some ISO_SAMPLE /\
    m' = numbered_entry 0.
Proof.
  apply (toStoredMessage_toUIMessage_roundtrip
           sample_env empty_world (numbered_entry 0) ISO_SAMPLE).
  - vm_compute. discriminate.
  - vm_compute. reflexivity.
  - reflexivity.
  - vm_compute. discriminate.
Defined.

(** The boundary of the round trip: an empty createdAt is falsy in the
    [||] chain, so the clock is read instead. *)
Remark toStoredMessage_toUIMessage_empty_createdAt
    (env : Env) (w : World) (m : StoredMessage) :
  content m <> [] ->
  trim (content m) = content m ->
  metadata m = Some {| createdAt := [] |} ->
  toStoredMessage env (toUIMessage m) None w =
    (Some {| role := role m; content := content m;
             metadata := Some {| createdAt := clock env (ticks w) |} |},
     {| storage := storage w; ticks := S (ticks w); trace := trace w |}).
Proof.
  intros Hne Htrim Hmd.
  unfold toStoredMessage. rewrite extractContent_toUIMessage, Htrim.
  destruct m as [r c md]. simpl in *. subst md.
  destruct c as [| c0 c]; [done |]. reflexivity.
Qed.

(** ** Running the handler *)

Lemma respond_finished (env : Env) (hist : list StoredMessage) (m : UIMessage)
    (w : World) (text : jsstring) :
  extractContent m <> [] ->
  model env (contextFor env hist m w) = Some text ->
  exists stamp finishedAt n,
    let written :=
      trimStoredHistory (hist ++ [userEntry m stamp; assistantEntry text finishedAt]) in
    respond env hist m w =
      (StreamResponse (Some text),
       {| storage := <[HISTORY_KEY := written]> (storage w);
          ticks := n;
          trace := trace w ++ [ModelCall (contextFor env hist m w);
                               StoragePut HISTORY_KEY written] |}).
Proof.
  intros Htext Hmodel.
  unfold respond, mbind, Turn_bind, isoNow, streamText, onFinish.
  fold (contextFor env hist m w). rewrite Hmodel.
  unfold mbind, Turn_bind.
  set (w1 := emit _ _).
  destruct (toStoredMessage_with_text env
              (withTimestamp m (clock env (ticks w)))
              (Some (clock env (ticks w))) w1 Htext)
    as (stamp & w2 & -> & Hst & Htr & _).
  exists stamp, (clock env (ticks w2)), (S (ticks w2)).
  unfold storage_put, emit, isoNow, mret, Turn_ret. simpl.
  rewrite Hst, Htr. subst w1. simpl.
  rewrite <- app_assoc. reflexivity.
Qed.

Lemma respond_failed (env : Env) (hist : list StoredMessage) (m : UIMessage)
    (w : World) :
  model env (contextFor env hist m w) = None ->
  respond env hist m w =
    (StreamResponse None,
     {| storage := storage w; ticks := S (ticks w);
        trace := trace w ++ [ModelCall (contextFor env hist m w)] |}).
Proof.
  intros Hmodel.
  unfold respond, mbind, Turn_bind, isoNow, streamText.
  fold (contextFor env hist m w). by rewrite Hmodel.
Qed.

Lemma new_events_app (w : World) (st : gmap string (list StoredMessage))
    (n : nat) (es : list Event) :
  new_events w {| storage := st; ticks := n; trace := trace w ++ es |} = es.
Proof. unfold new_events. simpl. by rewrite drop_app_length. Qed.

Lemma getLatestMessage_has_text (msgs : list UIMessage) (m : UIMessage) :
  getLatestMessage msgs = Some m -> extractContent m <> [].
Proof.
  rewrite (select_find hasText getLatestMessage eq_refl getLatestMessage_snoc).
  intros Hfind. apply find_some in Hfind as [_ Hm]. by apply hasText_true.
Qed.

Lemma getLatestUserMessage_user_text (msgs : list UIMessage) (m : UIMessage) :
  ChatDedup.getLatestUserMessage msgs = Some m ->
  msg_role m = user /\ extractContent m <> [].
Proof.
  rewrite (select_find isUserWithText ChatDedup.getLatestUserMessage
             eq_refl getLatestUserMessage_snoc).
  intros Hfind. apply find_some in Hfind as [_ Hm].
  unfold isUserWithText in Hm. apply andb_true_iff in Hm as [Hu Ht].
  split; [by apply bool_decide_eq_true in Hu | by apply hasText_true].
Qed.

(** The guards of [onChatMessage], one lemma per exit. *)
Section ChatGuards.
Context (env : Env) (msgs : list UIMessage) (w : World).

Lemma onChatMessage_no_message :
  getLatestMessage msgs = None ->
  Chat.onChatMessage env msgs w =
    (TextResponse "No valid message" 200, emit (StorageGet HISTORY_KEY) w).
Proof.
  intros Hsel. unfold Chat.onChatMessage, mbind, Turn_bind, storage_get.
  by rewrite Hsel.
Qed.

Lemma onChatMessage_clear (m : UIMessage) :
  getLatestMessage msgs = Some m ->
  msg_role m = system ->
  extractContent m = lit "(clear requested)" ->
  Chat.onChatMessage env msgs w =
    (JsonResponse {| ack_type := "clear"; success := true;
                     messagesDeleted := length (stored_log w) |} 200,
     {| storage := delete HISTORY_KEY (storage w);
        ticks := ticks w;
        trace := trace w ++ [StorageGet HISTORY_KEY; StorageDelete HISTORY_KEY] |}).
Proof.
  intros Hsel Hrole Htext.
  unfold Chat.onChatMessage, mbind, Turn_bind, storage_get.
  rewrite Hsel, Hrole, Htext. simpl.
  unfold storage_delete, emit, mret, Turn_ret, stored_log. simpl.
  by rewrite <- app_assoc.
Qed.

Lemma onChatMessage_non_user (m : UIMessage) :
  getLatestMessage msgs = Some m ->
  msg_role m <> user ->
  ~ (msg_role m = system /\ extractContent m = lit "(clear requested)") ->
  Chat.onChatMessage env msgs w =
    (TextResponse "Non-user message ignored" 200,
     emit (StorageGet HISTORY_KEY) w).
Proof.
  intros Hsel Hrole Hclear.
  unfold Chat.onChatMessage, mbind, Turn_bind, storage_get.
  rewrite Hsel.
  destruct (bool_decide (msg_role m = system) &&
            bool_decide (extractContent m = lit "(clear requested)")) eqn:Hc.
  - apply andb_true_iff in Hc as [H1 H2].
    apply bool_decide_eq_true in H1, H2. tauto.
  - by rewrite bool_decide_eq_true_2.
Qed.

Lemma onChatMessage_user (m : UIMessage) :
  getLatestMessage msgs = Some m ->
  msg_role m = user ->
  Chat.onChatMessage env msgs w =
    respond env (stored_log w) m (emit (StorageGet HISTORY_KEY) w).
Proof.
  intros Hsel Hrole.
  unfold Chat.onChatMessage, mbind, Turn_bind, storage_get.
  rewrite Hsel, Hrole. reflexivity.
Qed.
End ChatGuards.

(** C4. When the selected inbound message has role system and its
    extracted content is exactly ["(clear requested)"], the handler deletes
    the persisted log, does not call the model, and acknowledges with the
    number of messages deleted; against a log of 5 entries the log is left
    with length 0 and the acknowledgment carries 5. *)
Theorem clear_request_deletes_log
    (env : Env) (msgs : list UIMessage) (w : World) (m : UIMessage) :
  getLatestMessage msgs = Some m ->
  msg_role m = system ->
  extractContent m = lit "(clear requested)" ->
  exists w',
    Chat.onChatMessage env msgs w =
      (JsonResponse {| ack_type := "clear"; success := true;
                       messagesDeleted := length (stored_log w) |} 200, w') /\
    storage w' = delete HISTORY_KEY (storage w) /\
    storage w' !! HISTORY_KEY = None /\
    length (stored_log w') = 0 /\
    new_events w w' = [StorageGet HISTORY_KEY; StorageDelete HISTORY_KEY] /\
    (length (stored_log w) = 5 ->
       (Chat.onChatMessage env msgs w).1 =
         JsonResponse {| ack_type := "clear"; success := true;
                         messagesDeleted := 5 |} 200).
Proof.
  intros Hsel Hrole Htext.
  rewrite (onChatMessage_clear env msgs w m Hsel Hrole Htext).
  eexists. split; [reflexivity |]. simpl.
  split; [reflexivity |].
  split; [apply lookup_delete_eq |].
  split; [unfold stored_log; simpl; by rewrite lookup_delete_eq |].
  split; [apply new_events_app |].
  by intros ->.
Qed.

Lemma clear_request_deletes_log_witness :
  exists w',
    Chat.onChatMessage sample_env [inbound system "(clear requested)"]
      (world_with (numbered_log 5)) =
      (JsonResponse {| ack_type := "clear"; success := true;
                       messagesDeleted := 5 |} 200, w') /\
    length (stored_log w') = 0.
Proof.
  destruct (clear_request_deletes_log sample_env
              [inbound system "(clear requested)"]
              (world_with (numbered_log 5))
              (inbound system "(clear requested)"))
    as (w' & Hrun & _ & _ & Hlen & _).
  - vm_compute. reflexivity.
  - reflexivity.
  - vm_compute. reflexivity.
  - exists w'. split; [exact Hrun | exact Hlen].
Defined.

(** C8. When the selected inbound message is neither a user message nor
    the clear command, the handler answers with a no-op status: the model
    is not called and the persisted log is not touched. *)
Theorem non_user_message_ignored
    (env : Env) (msgs : list UIMessage) (w : World) (m : UIMessage) :
  getLatestMessage msgs = Some m ->
  msg_role m <> user ->
  ~ (msg_role m = system /\ extractContent m = lit "(clear requested)") ->
  exists w',
    Chat.onChatMessage env msgs w =
      (TextResponse "Non-user message ignored" 200, w') /\
    storage w' = storage w /\
    new_events w w' = [StorageGet HISTORY_KEY] /\
    Forall (fun e => is_write e = false /\ is_model_call e = false)
           (new_events w w').
Proof.
  intros Hsel Hrole Hclear.
  rewrite (onChatMessage_non_user env msgs w m Hsel Hrole Hclear).
  eexists. split; [reflexivity |]. unfold emit.
  rewrite new_events_app. by repeat constructor.
Qed.

Lemma non_user_message_ignored_witness :
  exists w',
    Chat.onChatMessage sample_env [inbound user "Offside?"; inbound assistant "No."]
      (world_with (numbered_log 5)) =
      (TextResponse "Non-user message ignored" 200, w') /\
    storage w' = storage (world_with (numbered_log 5)).
Proof.
  destruct (non_user_message_ignored sample_env
              [inbound user "Offside?"; inbound assistant "No."]
              (world_with (numbered_log 5))
              (inbound assistant "No."))
    as (w' & Hrun & Hst & _).
  - vm_compute. reflexivity.
  - discriminate.
  - intros [Hsys _]. discriminate Hsys.
  - exists w'. split; [exact Hrun | exact Hst].
Defined.

(** ** Every way a turn can end *)

Lemma respond_responded (env : Env) (w : World) (m : UIMessage) :
  msg_role m = user -> extractContent m <> [] ->
  responded env w
    (respond env (stored_log w) m (emit (StorageGet HISTORY_KEY) w)).2 m.
Proof.
  intros Hrole Htext. split; [done |]. split; [done |].
  set (w0 := emit (StorageGet HISTORY_KEY) w).
  destruct (model env (contextFor env (stored_log w) m w0)) as [text |] eqn:Hmodel.
  - right.
    destruct (respond_finished env (stored_log w) m w0 text Htext Hmodel)
      as (stamp & finishedAt & n & ->).
    exists text, stamp, finishedAt. simpl.
    split; [reflexivity |]. split; [reflexivity |].
    unfold new_events. simpl. rewrite <- app_assoc.
    by rewrite drop_app_length.
  - left. rewrite (respond_failed env (stored_log w) m w0 Hmodel).
    split; [reflexivity |]. split; [reflexivity |].
    unfold new_events. simpl. rewrite <- app_assoc.
    by rewrite drop_app_length.
Qed.

Lemma onChatMessage_cases (env : Env) (msgs : list UIMessage) (w : World) :
  let w' := (Chat.onChatMessage env msgs w).2 in
  (storage w' = storage w /\ new_events w w' = [StorageGet HISTORY_KEY]) \/
  (storage w' = delete HISTORY_KEY (storage w) /\
   new_events w w' = [StorageGet HISTORY_KEY; StorageDelete HISTORY_KEY]) \/
  (exists m, getLatestMessage msgs = Some m /\ responded env w w' m).
Proof.
  destruct (getLatestMessage msgs) as [m |] eqn:Hsel.
  - destruct (decide (msg_role m = system /\
                      extractContent m = lit "(clear requested)"))
      as [[Hsys Hclear] | Hnot].
    + right; left.
      rewrite (onChatMessage_clear env msgs w m Hsel Hsys Hclear). simpl.
      split; [reflexivity | apply new_events_app].
    + destruct (decide (msg_role m = user)) as [Huser | Hother].
      * right; right. exists m. split; [reflexivity |].
        rewrite (onChatMessage_user env msgs w m Hsel Huser).
        apply respond_responded; [done |].
        by apply (getLatestMessage_has_text msgs).
      * left. rewrite (onChatMessage_non_user env msgs w m Hsel Hother Hnot).
        split; [reflexivity | apply new_events_app].
  - left. rewrite (onChatMessage_no_message env msgs w Hsel).
    split; [reflexivity | apply new_events_app].
Qed.

(** The guards of the earlier revision. *)
Section DedupGuards.
Context (env : Env) (msgs : list UIMessage) (w : World).

Lemma isDuplicate_true (hist : list StoredMessage) (x : jsstring) :
  ChatDedup.isDuplicate hist x = true <->
  exists sm, sm ∈ hist /\ role sm = user /\ content sm = x.
Proof.
  unfold ChatDedup.isDuplicate. rewrite existsb_exists.
  setoid_rewrite andb_true_iff. setoid_rewrite bool_decide_eq_true.
  by setoid_rewrite list_elem_of_In.
Qed.

Lemma dedup_no_message :
  ChatDedup.getLatestUserMessage msgs = None ->
  ChatDedup.onChatMessage env msgs w =
    (TextResponse "No valid message" 200, emit (StorageGet HISTORY_KEY) w).
Proof.
  intros Hsel. unfold ChatDedup.onChatMessage, mbind, Turn_bind, storage_get.
  by rewrite Hsel.
Qed.

Lemma dedup_duplicate (m : UIMessage) :
  ChatDedup.getLatestUserMessage msgs = Some m ->
  ChatDedup.isDuplicate (stored_log w) (extractContent m) = true ->
  ChatDedup.onChatMessage env msgs w =
    (TextResponse "Duplicate message" 200, emit (StorageGet HISTORY_KEY) w).
Proof.
  intros Hsel Hdup. unfold ChatDedup.onChatMessage, mbind, Turn_bind, storage_get.
  rewrite Hsel. fold (stored_log w). by rewrite Hdup.
Qed.

Lemma dedup_fresh (m : UIMessage) :
  ChatDedup.getLatestUserMessage msgs = Some m ->
  ChatDedup.isDuplicate (stored_log w) (extractContent m) = false ->
  ChatDedup.onChatMessage env msgs w =
    respond env (stored_log w) m (emit (StorageGet HISTORY_KEY) w).
Proof.
  intros Hsel Hdup. unfold ChatDedup.onChatMessage, mbind, Turn_bind, storage_get.
  rewrite Hsel. fold (stored_log w). by rewrite Hdup.
Qed.
End DedupGuards.

Lemma dedup_cases (env : Env) (msgs : list UIMessage) (w : World) :
  let w' := (ChatDedup.onChatMessage env msgs w).2 in
  (storage w' = storage w /\ new_events w w' = [StorageGet HISTORY_KEY]) \/
  (exists m, ChatDedup.getLatestUserMessage msgs = Some m /\ responded env w w' m).
Proof.
  destruct (ChatDedup.getLatestUserMessage msgs) as [m |] eqn:Hsel.
  - destruct (ChatDedup.isDuplicate (stored_log w) (extractContent m)) eqn:Hdup.
    + left. rewrite (dedup_duplicate env msgs w m Hsel Hdup).
      split; [reflexivity | apply new_events_app].
    + right. exists m. split; [reflexivity |].
      rewrite (dedup_fresh env msgs w m Hsel Hdup).
      apply getLatestUserMessage_user_text in Hsel as [Huser Htext].
      by apply respond_responded.
  - left. rewrite (dedup_no_message env msgs w Hsel).
    split; [reflexivity | apply new_events_app].
Qed.

(** C5. In the revision with duplicate detection: when the stored log
    holds a user message with content X and the selected inbound user
    message extracts to X, the handler answers "Duplicate message" without
    writing to the storage and without calling the model. *)
Theorem duplicate_message_is_noop
    (env : Env) (msgs : list UIMessage) (w : World)
    (m : UIMessage) (sm : StoredMessage) (x : jsstring) :
  sm ∈ stored_log w -> role sm = user -> content sm = x ->
  ChatDedup.getLatestUserMessage msgs = Some m ->
  msg_role m = user -> extractContent m = x ->
  exists w',
    ChatDedup.onChatMessage env msgs w =
      (TextResponse "Duplicate message" 200, w') /\
    storage w' = storage w /\
    stored_log w' = stored_log w /\
    new_events w w' = [StorageGet HISTORY_KEY] /\
    Forall (fun e => is_write e = false /\ is_model_call e = false)
           (new_events w w').
Proof.
  intros Hin Hrole Hcontent Hsel _ Htext.
  assert (Hdup : ChatDedup.isDuplicate (stored_log w) (extractContent m) = true).
  { apply isDuplicate_true. exists sm. by rewrite Htext. }
  rewrite (dedup_duplicate env msgs w m Hsel Hdup).
  eexists. split; [reflexivity |]. unfold emit.
  rewrite new_events_app. by repeat constructor.
Qed.

Lemma duplicate_message_is_noop_witness :
  exists w',
    ChatDedup.onChatMessage sample_env [inbound user "X"]
      (world_with [assistantEntry (lit "Hello") ISO_SAMPLE;
                   userEntry (inbound user "X") ISO_SAMPLE]) =
      (TextResponse "Duplicate message" 200, w') /\
    storage w' = {[ HISTORY_KEY := [assistantEntry (lit "Hello") ISO_SAMPLE;
                                     userEntry (inbound user "X") ISO_SAMPLE] ]}.
Proof.
  destruct (duplicate_message_is_noop sample_env [inbound user "X"]
              (world_with [assistantEntry (lit "Hello") ISO_SAMPLE;
                           userEntry (inbound user "X") ISO_SAMPLE])
              (inbound user "X") (userEntry (inbound user "X") ISO_SAMPLE)
              (lit "X"))
    as (w' & Hrun & Hst & _).
  - vm_compute. apply list_elem_of_further, list_elem_of_here.
  - reflexivity.
  - vm_compute. reflexivity.
  - vm_compute. reflexivity.
  - reflexivity.
  - vm_compute. reflexivity.
  - exists w'. split; [exact Hrun | exact Hst].
Defined.

(** ** The storage bound *)

Lemma stored_log_insert (st : gmap string (list StoredMessage)) (n : nat)
    (tr : list Event) (value : list StoredMessage) :
  stored_log {| storage := <[HISTORY_KEY := value]> st; ticks := n; trace := tr |}
  = value.
Proof. unfold stored_log. simpl. by rewrite lookup_insert_eq. Qed.

Lemma stored_log_storage (w w' : World) :
  storage w' = storage w -> stored_log w' = stored_log w.
Proof. unfold stored_log. by intros ->. Qed.

Lemma trimStoredHistory_append_exchange (hist : list StoredMessage)
    (u a : StoredMessage) :
  98 <= length hist ->
  trimStoredHistory (hist ++ [u; a]) = drop (length hist - 98) hist ++ [u; a].
Proof.
  intros Hlen.
  destruct (decide (length hist = 98)) as [Heq | Hne].
  - rewrite trimStoredHistory_short
      by (rewrite length_app; simpl; unfold MAX_STORED_MESSAGES; lia).
    by rewrite Heq, Nat.sub_diag.
  - rewrite trimStoredHistory_long
      by (rewrite length_app; simpl; unfold MAX_STORED_MESSAGES; lia).
    rewrite length_app. simpl. unfold MAX_STORED_MESSAGES.
    replace (length hist + 2 - 100) with (length hist - 98) by lia.
    apply drop_app_le. lia.
Qed.

(** What a put of the turn writes, given that the turn responded. *)
Lemma responded_put (env : Env) (w w' : World) (m : UIMessage)
    (key : string) (value : list StoredMessage) :
  responded env w w' m ->
  StoragePut key value ∈ new_events w w' ->
  key = HISTORY_KEY /\ storage w' = <[HISTORY_KEY := value]> (storage w) /\
  exists u a,
    role u = user /\ content u = extractContent m /\ role a = assistant /\
    model env (contextFor env (stored_log w) m w) = Some (content a) /\
    value = trimStoredHistory (stored_log w ++ [u; a]).
Proof.
  intros (Hrole & Htext & [(_ & _ & Hev) | (text & stamp & fin & Hmodel & Hst & Hev)]) Hin;
    rewrite Hev in Hin; rewrite !elem_of_cons, elem_of_nil in Hin.
  - destruct Hin as [Hin | [Hin | []]]; discriminate Hin.
  - destruct Hin as [Hin | [Hin | [Hin | []]]]; try discriminate Hin.
    injection Hin as -> ->. split; [reflexivity |]. split; [exact Hst |].
    exists (userEntry m stamp), (assistantEntry text fin).
    by repeat split.
Qed.

(** C3. The persisted log stays within the storage maximum of 100 after
    every operation of the turn handler that writes it: whatever the prior
    history and the appended exchange, the value put back has at most 100
    entries, and when the cap is exceeded it is the oldest entries that are
    dropped (the value is the suffix of history plus exchange). *)
Theorem stored_log_stays_bounded (env : Env) (msgs : list UIMessage) (w : World) :
  let w' := (Chat.onChatMessage env msgs w).2 in
  (forall key value,
     StoragePut key value ∈ new_events w w' ->
     key = HISTORY_KEY /\ stored_log w' = value /\ length value <= 100 /\
     exists u a,
       let updated := stored_log w ++ [u; a] in
       role u = user /\ role a = assistant /\
       value `suffix_of` updated /\
       (length updated <= 100 -> value = updated) /\
       (100 < length updated -> value = drop (length updated - 100) updated)) /\
  (stored_log w' = stored_log w \/ length (stored_log w') <= 100) /\
  (length (stored_log w) <= 100 -> length (stored_log w') <= 100).
Proof.
  intros w'.
  assert (Hput : forall key value,
             StoragePut key value ∈ new_events w w' ->
             key = HISTORY_KEY /\ stored_log w' = value /\ length value <= 100 /\
             exists u a,
               let updated := stored_log w ++ [u; a] in
               role u = user /\ role a = assistant /\
               value `suffix_of` updated /\
               (length updated <= 100 -> value = updated) /\
               (100 < length updated ->
                  value = drop (length updated - 100) updated)).
  { intros key value Hin.
    destruct (onChatMessage_cases env msgs w)
      as [[_ Hev] | [[_ Hev] | (m & _ & Hresp)]]; fold w' in Hev || fold w' in Hresp.
    - rewrite Hev, !elem_of_cons, elem_of_nil in Hin.
      destruct Hin as [Hin | []]; discriminate Hin.
    - rewrite Hev, !elem_of_cons, elem_of_nil in Hin.
      destruct Hin as [Hin | [Hin | []]]; discriminate Hin.
    - destruct (responded_put env w w' m key value Hresp Hin)
        as (-> & Hst & u & a & Hu & _ & Ha & _ & ->).
      split; [reflexivity |].
      split; [unfold stored_log; by rewrite Hst, lookup_insert_eq |].
      split; [apply trimStoredHistory_length |].
      exists u, a. simpl. repeat split; try done.
      + apply trimStoredHistory_suffix.
      + apply trimStoredHistory_short.
      + apply trimStoredHistory_long. }
  assert (Hlog : stored_log w' = stored_log w \/ length (stored_log w') <= 100).
  { destruct (onChatMessage_cases env msgs w)
      as [[Hst _] | [[Hst _] | (m & _ & Hresp)]]; fold w' in Hst || fold w' in Hresp.
    - left. by apply stored_log_storage.
    - right. unfold stored_log. rewrite Hst, lookup_delete_eq. simpl. lia.
    - destruct Hresp as (_ & _ & [(_ & Hst & _) | (text & stamp & fin & _ & Hst & _)]).
      + left. by apply stored_log_storage.
      + right. unfold stored_log. rewrite Hst, lookup_insert_eq. simpl.
        apply trimStoredHistory_length. }
  split; [exact Hput |]. split; [exact Hlog |].
  intros Hbefore. destruct Hlog as [-> | Hle]; done.
Qed.

Lemma stored_log_stays_bounded_witness :
  length (stored_log (world_with (numbered_log 100))) <= 100 /\
  length (stored_log
            (Chat.onChatMessage sample_env [penalty_question]
               (world_with (numbered_log 100))).2) <= 100.
Proof.
  assert (H : length (stored_log (world_with (numbered_log 100))) <= 100)
    by (vm_compute; lia).
  split; [exact H |].
  destruct (stored_log_stays_bounded sample_env [penalty_question]
              (world_with (numbered_log 100))) as (_ & _ & Hinv).
  apply Hinv. exact H.
Defined.

(** ** A turn against a log of 120 entries *)

Lemma onChatMessage_user_finished (env : Env) (msgs : list UIMessage) (w : World)
    (m : UIMessage) (text : jsstring) :
  getLatestMessage msgs = Some m ->
  msg_role m = user ->
  model env (contextFor env (stored_log w) m w) = Some text ->
  exists stamp finishedAt,
    stored_log (Chat.onChatMessage env msgs w).2 =
      trimStoredHistory
        (stored_log w ++ [userEntry m stamp; assistantEntry text finishedAt]).
Proof.
  intros Hsel Hrole Hmodel.
  rewrite (onChatMessage_user env msgs w m Hsel Hrole).
  destruct (respond_finished env (stored_log w) m
              (emit (StorageGet HISTORY_KEY) w) text) as (stamp & fin & n & ->).
  - by apply (getLatestMessage_has_text msgs).
  - exact Hmodel.
  - exists stamp, fin. simpl. apply stored_log_insert.
Qed.

(** C1 (amended). Starting from a persisted log of 120 entries, a turn
    that appends one exchange leaves a stored log of exactly 100 entries:
    the 22 oldest original entries are dropped, the other 98 are kept in
    order, and the two new entries (user message, then assistant message)
    are the two newest entries of the result. *)
Theorem turn_on_120_entries_keeps_newest_100
    (env : Env) (msgs : list UIMessage) (w : World)
    (hist : list StoredMessage) (m : UIMessage) (text : jsstring) :
  storage w !! HISTORY_KEY = Some hist ->
  length hist = 120 ->
  getLatestMessage msgs = Some m ->
  msg_role m = user ->
  model env (contextFor env hist m w) = Some text ->
  exists u a,
    let final := stored_log (Chat.onChatMessage env msgs w).2 in
    role u = user /\ content u = extractContent m /\
    role a = assistant /\ content a = text /\
    final = drop 22 hist ++ [u; a] /\
    length final = 100 /\
    length (drop 22 hist) = 98.
Proof.
  intros Hget Hlen Hsel Hrole Hmodel.
  assert (Hlog : stored_log w = hist) by (unfold stored_log; by rewrite Hget).
  rewrite <- Hlog in Hmodel.
  destruct (onChatMessage_user_finished env msgs w m text Hsel Hrole Hmodel)
    as (stamp & fin & Hfinal).
  exists (userEntry m stamp), (assistantEntry text fin). simpl.
  rewrite Hfinal, Hlog, trimStoredHistory_append_exchange by lia.
  rewrite Hlen. change (120 - 98) with 22.
  repeat split; try done.
  - rewrite length_app, length_drop. simpl. lia.
  - rewrite length_drop. lia.
Qed.

Lemma turn_on_120_entries_keeps_newest_100_witness :
  exists u a,
    stored_log (Chat.onChatMessage sample_env [penalty_question]
                  (world_with (numbered_log 120))).2
    = drop 22 (numbered_log 120) ++ [u; a] /\
    content u = lit "Is it a penalty?" /\
    content a = lit "Direct free kick.".
Proof.
  destruct (turn_on_120_entries_keeps_newest_100 sample_env [penalty_question]
              (world_with (numbered_log 120)) (numbered_log 120)
              penalty_question (lit "Direct free kick."))
    as (u & a & _ & Hu & _ & Ha & Hfinal & _).
  - vm_compute. reflexivity.
  - vm_compute. reflexivity.
  - vm_compute. reflexivity.
  - reflexivity.
  - reflexivity.
  - exists u, a. split; [exact Hfinal |]. split; [exact Hu | exact Ha].
Defined.

(** C1 as worded fails: with 120 stored entries and 2 appended, 22 entries
    go, not 20; the originals numbered 20 and 21 are not in the final log,
    which therefore is not "all but the 20 oldest, plus the exchange". *)
Lemma turn_on_120_entries_drops_22 :
  (length log_after_turn_on_120 = 100) /\
  (numbered_entry 20 ∈ numbered_log 120) /\
  (numbered_entry 20 ∉ log_after_turn_on_120) /\
  (numbered_entry 21 ∈ numbered_log 120) /\
  (numbered_entry 21 ∉ log_after_turn_on_120) /\
  (log_after_turn_on_120 !! 0 = Some (numbered_entry 22)) /\
  (forall u a, log_after_turn_on_120 <> drop 20 (numbered_log 120) ++ [u; a]).
Proof.
  split; [by vm_compute |].
  split; [apply (bool_decide_unpack _); by vm_compute |].
  split; [apply (bool_decide_unpack _); by vm_compute |].
  split; [apply (bool_decide_unpack _); by vm_compute |].
  split; [apply (bool_decide_unpack _); by vm_compute |].
  split; [by vm_compute |].
  intros u a Heq. apply (f_equal length) in Heq.
  rewrite length_app, length_drop in Heq. vm_compute in Heq. discriminate Heq.
Qed.

(** ** The conversion guard of [onFinish] *)

Lemma responded_model_call (env : Env) (w w' : World) (m : UIMessage)
    (ctx : list UIMessage) :
  responded env w w' m ->
  ModelCall ctx ∈ new_events w w' ->
  is_Some (model env ctx) ->
  exists value, StoragePut HISTORY_KEY value ∈ new_events w w'.
Proof.
  intros (_ & _ & [(Hnone & _ & Hev) | (text & stamp & fin & _ & _ & Hev)]) Hin Hsome;
    rewrite Hev in Hin |- *; rewrite !elem_of_cons, elem_of_nil in Hin.
  - destruct Hin as [Hin | [Hin | []]]; [discriminate Hin |].
    injection Hin as ->. rewrite Hnone in Hsome. by destruct Hsome.
  - eexists. rewrite !elem_of_cons. right; right; left. reflexivity.
Qed.

(** C10. The conversion-failure branch is unreachable: whatever
    [getLatestMessage] (or [getLatestUserMessage]) returns converts to a
    non-null stored message once its createdAt is replaced by a fresh time
    stamp, since selection guarantees non-empty extracted text and the
    stamping leaves the parts alone; so whenever the model finishes, the
    handler does reach the storage write. *)
Theorem conversion_failure_unreachable :
  (forall env msgs m now w,
     getLatestMessage msgs = Some m ->
     extractContent (withTimestamp m now) = extractContent m /\
     extractContent m <> [] /\
     exists sm w',
       toStoredMessage env (withTimestamp m now) (Some now) w = (Some sm, w') /\
       role sm = msg_role m /\ content sm = extractContent m) /\
  (forall env msgs m now w,
     ChatDedup.getLatestUserMessage msgs = Some m ->
     extractContent (withTimestamp m now) = extractContent m /\
     extractContent m <> [] /\
     exists sm w',
       toStoredMessage env (withTimestamp m now) (Some now) w = (Some sm, w') /\
       role sm = msg_role m /\ content sm = extractContent m) /\
  (forall env msgs w ctx,
     let w' := (Chat.onChatMessage env msgs w).2 in
     ModelCall ctx ∈ new_events w w' ->
     is_Some (model env ctx) ->
     exists value, StoragePut HISTORY_KEY value ∈ new_events w w') /\
  (forall env msgs w ctx,
     let w' := (ChatDedup.onChatMessage env msgs w).2 in
     ModelCall ctx ∈ new_events w w' ->
     is_Some (model env ctx) ->
     exists value, StoragePut HISTORY_KEY value ∈ new_events w w').
Proof.
  assert (Hconv : forall env m now w,
             extractContent m <> [] ->
             exists sm w',
               toStoredMessage env (withTimestamp m now) (Some now) w
                 = (Some sm, w') /\
               role sm = msg_role m /\ content sm = extractContent m).
  { intros env m now w Htext.
    destruct (toStoredMessage_with_text env (withTimestamp m now) (Some now) w)
      as (stamp & w' & Hrun & _); [exact Htext |].
    eexists _, w'. split; [exact Hrun |]. by split. }
  repeat apply conj.
  - intros env msgs m now w Hsel.
    apply getLatestMessage_has_text in Hsel.
    split; [reflexivity |]. split; [exact Hsel | by apply Hconv].
  - intros env msgs m now w Hsel.
    apply getLatestUserMessage_user_text in Hsel as [_ Htext].
    split; [reflexivity |]. split; [exact Htext | by apply Hconv].
  - intros env msgs w ctx w' Hin Hsome.
    destruct (onChatMessage_cases env msgs w)
      as [[_ Hev] | [[_ Hev] | (m & _ & Hresp)]];
      fold w' in Hev || fold w' in Hresp.
    + rewrite Hev, !elem_of_cons, elem_of_nil in Hin.
      destruct Hin as [Hin | []]; discriminate Hin.
    + rewrite Hev, !elem_of_cons, elem_of_nil in Hin.
      destruct Hin as [Hin | [Hin | []]]; discriminate Hin.
    + by apply (responded_model_call env w w' m ctx).
  - intros env msgs w ctx w' Hin Hsome.
    destruct (dedup_cases env msgs w) as [[_ Hev] | (m & _ & Hresp)];
      fold w' in Hev || fold w' in Hresp.
    + rewrite Hev, !elem_of_cons, elem_of_nil in Hin.
      destruct Hin as [Hin | []]; discriminate Hin.
    + by apply (responded_model_call env w w' m ctx).
Qed.

Lemma conversion_failure_unreachable_witness :
  exists sm w',
    toStoredMessage sample_env
      (withTimestamp (inbound user "real question") ISO_SAMPLE)
      (Some ISO_SAMPLE) empty_world = (Some sm, w') /\
    role sm = user /\ content sm = lit "real question".
Proof.
  destruct conversion_failure_unreachable as (Hconv & _).
  destruct (Hconv sample_env example_batch (inbound user "real question")
              ISO_SAMPLE empty_world) as (_ & _ & Hsm).
  - vm_compute. reflexivity.
  - exact Hsm.
Defined.

(** * Further properties of the code *)

(** ** Trimming *)

Lemma trimStart_whitespace_app (pre s : jsstring) :
  allWhiteSpace pre -> trimStart (pre ++ s) = trimStart s.
Proof.
  induction 1 as [| c pre Hc _ IH]; simpl; [reflexivity |].
  by rewrite Hc.
Qed.

Lemma trimStart_whitespace (s : jsstring) :
  allWhiteSpace s -> trimStart s = [].
Proof.
  intros Hs. rewrite <- (app_nil_r s). by rewrite trimStart_whitespace_app.
Qed.

Lemma trimStart_fixed (s : jsstring) :
  (forall c, head s = Some c -> isWhiteSpace c = false) -> trimStart s = s.
Proof.
  destruct s as [| c s]; simpl; [reflexivity |].
  intros Hc. by rewrite (Hc c).
Qed.

Lemma trimStart_head (s : jsstring) (c : code_unit) :
  head (trimStart s) = Some c -> isWhiteSpace c = false.
Proof.
  induction s as [| d s IH]; simpl; [discriminate |].
  destruct (isWhiteSpace d) eqn:Hd; [exact IH |].
  simpl. by intros [= <-].
Qed.

Lemma trimStart_last (s : jsstring) (c : code_unit) :
  last (trimStart s) = Some c -> last s = Some c.
Proof.
  induction s as [| d s IH]; simpl; [discriminate |].
  destruct (isWhiteSpace d); [| done].
  intros Hc. specialize (IH Hc). rewrite last_cons, IH. done.
Qed.

Lemma trim_trimmedText (s : jsstring) : trimmedText (trim s).
Proof.
  unfold trim, trimEnd. split; intros c Hc.
  - rewrite head_reverse in Hc. apply trimStart_last in Hc.
    rewrite last_reverse in Hc. by apply trimStart_head in Hc.
  - rewrite last_reverse in Hc. by apply trimStart_head in Hc.
Qed.

Lemma trim_fixed (s : jsstring) : trimmedText s -> trim s = s.
Proof.
  intros [Hhead Hlast]. unfold trim, trimEnd.
  rewrite (trimStart_fixed s Hhead).
  rewrite trimStart_fixed; [apply reverse_involutive |].
  intros c. rewrite head_reverse. apply Hlast.
Qed.

Lemma trim_idempotent (s : jsstring) : trim (trim s) = trim s.
Proof. apply trim_fixed, trim_trimmedText. Qed.

(** The core of a text between two runs of whitespace. *)
Lemma trim_core (pre core post : jsstring) :
  allWhiteSpace pre -> allWhiteSpace post -> trimmedText core ->
  trim (pre ++ core ++ post) = core.
Proof.
  intros Hpre Hpost [Hhead Hlast]. unfold trim, trimEnd.
  rewrite trimStart_whitespace_app by done.
  destruct core as [| c core].
  - simpl. rewrite (trimStart_whitespace post) by done. reflexivity.
  - assert (Hc : isWhiteSpace c = false) by by apply Hhead.
    change (trimStart ((c :: core) ++ post)) with
      (if isWhiteSpace c then trimStart (core ++ post) else (c :: core) ++ post).
    rewrite Hc, reverse_app.
    rewrite (trimStart_whitespace_app (reverse post))
      by (unfold allWhiteSpace; by rewrite Forall_reverse).
    rewrite trimStart_fixed; [apply reverse_involutive |].
    intros d. rewrite head_reverse. apply Hlast.
Qed.

(** ** Extracted text is in normal form *)

Lemma extractContent_trim (m : UIMessage) :
  trim (extractContent m) = extractContent m.
Proof. apply trim_idempotent. Qed.

(** X1. Whatever [extractContent] returns has no whitespace at either
    end, trimming it again changes nothing, and a stored message holding it
    extracts to the same text once turned back into a UI message. *)
Theorem extractContent_is_trimmed (m : UIMessage) :
  trimmedText (extractContent m) /\
  trim (extractContent m) = extractContent m /\
  (forall sm, content sm = extractContent m ->
              extractContent (toUIMessage sm) = extractContent m).
Proof.
  split; [apply trim_trimmedText |].
  split; [apply trim_idempotent |].
  intros sm Hsm. rewrite extractContent_toUIMessage, Hsm.
  apply trim_idempotent.
Qed.

Lemma extractContent_empty_iff (m : UIMessage) :
  extractContent m = [] <-> allWhiteSpace (textPartsConcat m).
Proof.
  rewrite extractContent_trim_concat. split.
  - intros Hempty.
    destruct (trim_split (textPartsConcat m)) as (pre & post & Hs & Hpre & Hpost).
    rewrite Hempty in Hs. rewrite Hs. simpl.
    by apply Forall_app.
  - intros Hws.
    rewrite <- (app_nil_r (textPartsConcat m)).
    change (textPartsConcat m ++ []) with (textPartsConcat m ++ [] ++ []).
    apply trim_core; [done | constructor |].
    split; intros c; discriminate.
Qed.

(** X2. The clear command is recognised on the trimmed concatenation of
    the text parts: a selected system message whose text parts, joined,
    read ["(clear requested)"] between any amounts of whitespace deletes
    the log, however the text is split over the parts. *)
Theorem clear_request_modulo_whitespace
    (env : Env) (msgs : list UIMessage) (w : World) (m : UIMessage)
    (pre post : jsstring) :
  getLatestMessage msgs = Some m ->
  msg_role m = system ->
  textPartsConcat m = pre ++ lit "(clear requested)" ++ post ->
  allWhiteSpace pre -> allWhiteSpace post ->
  Chat.onChatMessage env msgs w =
    (JsonResponse {| ack_type := "clear"; success := true;
                     messagesDeleted := length (stored_log w) |} 200,
     {| storage := delete HISTORY_KEY (storage w);
        ticks := ticks w;
        trace := trace w ++ [StorageGet HISTORY_KEY; StorageDelete HISTORY_KEY] |}).
Proof.
  intros Hsel Hrole Htext Hpre Hpost.
  apply (onChatMessage_clear env msgs w m Hsel Hrole).
  rewrite extractContent_trim_concat, Htext.
  apply trim_core; [done | done |].
  split; intros c [= <-]; reflexivity.
Qed.

Lemma clear_request_modulo_whitespace_witness :
  Chat.onChatMessage sample_env [split_clear_message] (world_with (numbered_log 5)) =
    (JsonResponse {| ack_type := "clear"; success := true;
                     messagesDeleted := length (stored_log (world_with (numbered_log 5))) |} 200,
     {| storage := delete HISTORY_KEY (storage (world_with (numbered_log 5)));
        ticks := 0;
        trace := [StorageGet HISTORY_KEY; StorageDelete HISTORY_KEY] |}).
Proof.
  apply (clear_request_modulo_whitespace sample_env [split_clear_message]
           (world_with (numbered_log 5)) split_clear_message
           (lit "  ") (lit " ")).
  - vm_compute. reflexivity.
  - reflexivity.
  - vm_compute. reflexivity.
  - repeat constructor.
  - repeat constructor.
Defined.

(** ** Conversion to the stored form *)

(** X3. [toStoredMessage] returns null exactly when the text parts of the
    message, joined, are empty or whitespace only, whatever time stamp is
    passed; in that case nothing else happens (the clock is not read). *)
Theorem toStoredMessage_null_iff_blank
    (env : Env) (m : UIMessage) (timestamp : option jsstring) (w : World) :
  ((toStoredMessage env m timestamp w).1 = None <->
   allWhiteSpace (textPartsConcat m)) /\
  (allWhiteSpace (textPartsConcat m) ->
   toStoredMessage env m timestamp w = (None, w)).
Proof.
  rewrite <- extractContent_empty_iff.
  destruct (decide (extractContent m = [])) as [Hempty | Htext].
  - assert (Hrun : toStoredMessage env m timestamp w = (None, w))
      by (unfold toStoredMessage; by rewrite Hempty).
    rewrite Hrun. by repeat split.
  - destruct (toStoredMessage_with_text env m timestamp w Htext)
      as (stamp & w' & -> & _).
    simpl. by repeat split.
Qed.

Lemma toStoredMessage_null_iff_blank_witness :
  toStoredMessage sample_env blank_message (Some ISO_SAMPLE) empty_world =
    (None, empty_world).
Proof.
  destruct (toStoredMessage_null_iff_blank sample_env blank_message
              (Some ISO_SAMPLE) empty_world) as (_ & Hblank).
  apply Hblank. vm_compute. repeat constructor.
Defined.

(** X4. Every stored message [toStoredMessage] produces has the role of
    the message, a non-empty trimmed content and metadata; when its
    createdAt is non-empty it survives the way through [toUIMessage] and
    back unchanged, without the clock being read. *)
Theorem toStoredMessage_output_roundtrips
    (env env' : Env) (m : UIMessage) (timestamp : option jsstring)
    (w w' w0 : World) (sm : StoredMessage) :
  toStoredMessage env m timestamp w = (Some sm, w') ->
  role sm = msg_role m /\
  content sm = extractContent m /\
  content sm <> [] /\
  trim (content sm) = content sm /\
  exists stamp,
    metadata sm = Some {| createdAt := stamp |} /\
    (stamp <> [] ->
     toStoredMessage env' (toUIMessage sm) None w0 = (Some sm, w0)).
Proof.
  intros Hrun.
  destruct (decide (extractContent m = [])) as [Hempty | Htext].
  { unfold toStoredMessage in Hrun. rewrite Hempty in Hrun. discriminate Hrun. }
  destruct (toStoredMessage_with_text env m timestamp w Htext)
    as (stamp & w1 & Hrun' & _).
  rewrite Hrun' in Hrun. injection Hrun as <- <-. simpl.
  split; [reflexivity |]. split; [reflexivity |]. split; [exact Htext |].
  split; [apply extractContent_trim |].
  exists stamp. split; [reflexivity |]. intros Hstamp.
  unfold toStoredMessage. rewrite extractContent_toUIMessage. simpl.
  rewrite extractContent_trim.
  destruct (extractContent m) as [| c s]; [done |].
  destruct stamp as [| t stamp]; [done |]. reflexivity.
Qed.

Lemma toStoredMessage_output_roundtrips_witness :
  exists sm,
    toStoredMessage sample_env penalty_question (Some ISO_SAMPLE) empty_world
      = (Some sm, empty_world) /\
    toStoredMessage sample_env (toUIMessage sm) None empty_world
      = (Some sm, empty_world).
Proof.
  eexists. split; [vm_compute; reflexivity |].
  destruct (toStoredMessage_output_roundtrips sample_env sample_env
              penalty_question (Some ISO_SAMPLE) empty_world empty_world
              empty_world (userEntry penalty_question ISO_SAMPLE))
    as (_ & _ & _ & _ & stamp & Hmd & Hback).
  - vm_compute. reflexivity.
  - apply Hback. injection Hmd as <-. vm_compute. discriminate.
Defined.

(** ** Window and trim together *)

(** X5. Trimming for storage never changes what the next turn sends as
    context: the window of the trimmed log is the window of the log.  Both
    operations are idempotent, and the window is a suffix of the trimmed
    log. *)
Theorem window_of_trimmed_log (log : list StoredMessage) :
  getRecentMessages (trimStoredHistory log) = getRecentMessages log /\
  trimStoredHistory (trimStoredHistory log) = trimStoredHistory log /\
  getRecentMessages (getRecentMessages log) = getRecentMessages log /\
  getRecentMessages log `suffix_of` trimStoredHistory log.
Proof.
  assert (Htrim : trimStoredHistory (trimStoredHistory log) = trimStoredHistory log)
    by apply trimStoredHistory_short, trimStoredHistory_length.
  assert (Hwin : getRecentMessages (getRecentMessages log) = getRecentMessages log).
  { apply getRecentMessages_short.
    destruct (decide (length log <= MAX_MESSAGES_IN_CONTEXT)) as [H | H].
    - by rewrite getRecentMessages_short.
    - rewrite getRecentMessages_long, length_drop by lia. lia. }
  destruct (decide (length log <= MAX_STORED_MESSAGES)) as [Hshort | Hlong].
  - rewrite !(trimStoredHistory_short log) by done.
    split; [reflexivity |]. split; [reflexivity |]. split; [exact Hwin |].
    destruct (decide (length log <= MAX_MESSAGES_IN_CONTEXT)) as [H | H].
    + by rewrite getRecentMessages_short.
    + rewrite getRecentMessages_long by lia. apply suffix_drop.
  - assert (Hcomp : getRecentMessages (trimStoredHistory log) = getRecentMessages log).
    { rewrite trimStoredHistory_long by lia.
      unfold MAX_STORED_MESSAGES, MAX_MESSAGES_IN_CONTEXT in *.
      rewrite !getRecentMessages_long
        by (rewrite ?length_drop; unfold MAX_MESSAGES_IN_CONTEXT; lia).
      rewrite length_drop, drop_drop. unfold MAX_MESSAGES_IN_CONTEXT.
      f_equal. lia. }
    split; [exact Hcomp |]. split; [exact Htrim |]. split; [exact Hwin |].
    rewrite <- Hcomp.
    destruct (decide (length (trimStoredHistory log) <= MAX_MESSAGES_IN_CONTEXT))
      as [H | H].
    + by rewrite getRecentMessages_short.
    + rewrite getRecentMessages_long by lia. apply suffix_drop.
Qed.

(** ** The turn, exit by exit *)



(** The four exits of the handler of [src/server.ts]. *)
Lemma onChatMessage_exits (env : Env) (msgs : list UIMessage) (w : World) :
  let w' := (Chat.onChatMessage env msgs w).2 in
  (getLatestMessage msgs = None /\
   storage w' = storage w /\ new_events w w' = [StorageGet HISTORY_KEY]) \/
  (exists m, getLatestMessage msgs = Some m /\
     msg_role m = system /\ extractContent m = lit "(clear requested)" /\
     storage w' = delete HISTORY_KEY (storage w) /\
     new_events w w' = [StorageGet HISTORY_KEY; StorageDelete HISTORY_KEY]) \/
  (exists m, getLatestMessage msgs = Some m /\
     msg_role m <> user /\
     ~ (msg_role m = system /\ extractContent m = lit "(clear requested)") /\
     storage w' = storage w /\ new_events w w' = [StorageGet HISTORY_KEY]) \/
  (exists m, getLatestMessage msgs = Some m /\ responded env w w' m).
Proof.
  destruct (getLatestMessage msgs) as [m |] eqn:Hsel.
  - destruct (decide (msg_role m = system /\
                      extractContent m = lit "(clear requested)"))
      as [[Hsys Hclear] | Hnot].
    + right; left. exists m.
      rewrite (onChatMessage_clear env msgs w m Hsel Hsys Hclear). simpl.
      repeat (split; [done |]). apply new_events_app.
    + destruct (decide (msg_role m = user)) as [Huser | Hother].
      * right; right; right. exists m. split; [reflexivity |].
        rewrite (onChatMessage_user env msgs w m Hsel Huser).
        apply respond_responded; [done |].
        by apply (getLatestMessage_has_text msgs).
      * right; right; left. exists m.
        rewrite (onChatMessage_non_user env msgs w m Hsel Hother Hnot).
        repeat (split; [done |]). apply new_events_app.
  - left. rewrite (onChatMessage_no_message env msgs w Hsel).
    repeat (split; [done |]). apply new_events_app.
Qed.


Lemma responded_context (env : Env) (w w' : World) (m : UIMessage)
    (ctx : list UIMessage) :
  responded env w w' m ->
  ModelCall ctx ∈ new_events w w' ->
  ctx = contextFor env (stored_log w) m w.
Proof.
  intros (_ & _ & [(_ & _ & Hev) | (text & stamp & fin & _ & _ & Hev)]) Hin;
    rewrite Hev, !elem_of_cons, elem_of_nil in Hin.
  - destruct Hin as [Hin | [Hin | []]]; [discriminate Hin |].
    by injection Hin.
  - destruct Hin as [Hin | [Hin | [Hin | []]]]; try discriminate Hin.
    by injection Hin.
Qed.



(** ** Stamping in the first revision *)

Lemma assignCreatedAt_cases (env : Env) (m : UIMessage) (w : World) :
  (hasCreatedAt m /\ ChatFirst.assignCreatedAt env m w = (m, w)) \/
  (~ hasCreatedAt m /\
   ChatFirst.assignCreatedAt env m w =
     (withTimestamp m (clock env (ticks w)),
      {| storage := storage w; ticks := S (ticks w); trace := trace w |})).
Proof.
  unfold ChatFirst.assignCreatedAt.
  destruct (msg_metadata m ≫= ui_createdAt) as [[| c s] |] eqn:Hmd; simpl.
  - right. split; [| reflexivity]. intros (s & Heq & Hs).
    unfold jsstring, code_unit in *. congruence.
  - left. split; [| reflexivity]. by exists (c :: s).
  - right. split; [| reflexivity]. intros (s & Heq & _).
    unfold jsstring, code_unit in *. congruence.
Qed.

Lemma mapTurn_cons {A B : Type} (f : A -> Turn B) (x : A) (l : list A) (w : World) :
  mapTurn f (x :: l) w =
    ((f x w).1 :: (mapTurn f l (f x w).2).1, (mapTurn f l (f x w).2).2).
Proof.
  simpl. unfold mbind, Turn_bind, mret, Turn_ret.
  destruct (f x w) as [y w1]. simpl. by destruct (mapTurn f l w1).
Qed.

(** A property of the world kept by every call is kept by the whole map. *)
Lemma mapTurn_preserves {A B : Type} (f : A -> Turn B) (I : World -> Prop) :
  (forall x w, I w -> I (f x w).2) ->
  forall l w, I w -> I (mapTurn f l w).2.
Proof.
  intros Hstep. induction l as [| x l IH]; intros w Hw; [exact Hw |].
  rewrite mapTurn_cons. simpl. by apply IH, Hstep.
Qed.

Lemma assignCreatedAt_storage (env : Env) (m : UIMessage) (w : World) :
  storage (ChatFirst.assignCreatedAt env m w).2 = storage w /\
  trace (ChatFirst.assignCreatedAt env m w).2 = trace w.
Proof.
  by destruct (assignCreatedAt_cases env m w) as [[_ ->] | [_ ->]].
Qed.

(** ** What a turn touches *)

(** X7. A turn reads and writes the storage under the key
    ["conversation_history"] only: every other key of the session's
    storage holds after the turn what it held before, in all three
    revisions (the first one leaves the whole storage alone). *)
Theorem turn_leaves_other_keys_alone
    (env : Env) (msgs : list UIMessage) (w : World) (key : string) :
  key <> HISTORY_KEY ->
  storage (Chat.onChatMessage env msgs w).2 !! key = storage w !! key /\
  storage (ChatDedup.onChatMessage env msgs w).2 !! key = storage w !! key /\
  storage (ChatFirst.onChatMessage env msgs w).2 = storage w.
Proof.
  intros Hkey.
  assert (Hresp : forall w' m,
             responded env w w' m -> storage w' !! key = storage w !! key).
  { intros w' m (_ & _ & [(_ & -> & _) | (text & stamp & fin & _ & -> & _)]);
      [reflexivity | by apply lookup_insert_ne]. }
  split; [| split].
  - destruct (onChatMessage_cases env msgs w)
      as [[-> _] | [[-> _] | (m & _ & Hr)]];
      [reflexivity | by apply lookup_delete_ne | by apply (Hresp _ m)].
  - destruct (dedup_cases env msgs w) as [[-> _] | (m & _ & Hr)];
      [reflexivity | by apply (Hresp _ m)].
  - unfold ChatFirst.onChatMessage, mbind, Turn_bind, streamText.
    pose proof (mapTurn_preserves (ChatFirst.assignCreatedAt env)
                  (fun w0 => storage w0 = storage w)) as Hmap.
    specialize (Hmap (fun x w0 Hw0 =>
                        eq_trans (proj1 (assignCreatedAt_storage env x w0)) Hw0)
                     msgs w eq_refl).
    by destruct (mapTurn (ChatFirst.assignCreatedAt env) msgs w).
Qed.

Lemma turn_leaves_other_keys_alone_witness :
  storage (Chat.onChatMessage sample_env [penalty_question]
             {| storage := {[ "settings"%string := numbered_log 2 ]};
                ticks := 0; trace := [] |}).2 !! "settings"%string
  = Some (numbered_log 2).
Proof.
  destruct (turn_leaves_other_keys_alone sample_env [penalty_question]
              {| storage := {[ "settings"%string := numbered_log 2 ]};
                 ticks := 0; trace := [] |} "settings"%string) as (Hchat & _).
  - vm_compute. discriminate.
  - rewrite Hchat. vm_compute. reflexivity.
Defined.

Lemma responded_events (env : Env) (w w' : World) (m : UIMessage) :
  responded env w w' m ->
  let ctx := contextFor env (stored_log w) m w in
  (model env ctx = None /\
   new_events w w' = [StorageGet HISTORY_KEY; ModelCall ctx]) \/
  (exists value,
     is_Some (model env ctx) /\
     new_events w w' =
       [StorageGet HISTORY_KEY; ModelCall ctx; StoragePut HISTORY_KEY value]).
Proof.
  intros (_ & _ & [(Hnone & _ & Hev) | (text & stamp & fin & Hsome & _ & Hev)]).
  - by left.
  - right. eexists. split; [| exact Hev]. by exists text.
Qed.

(** X8. In the handler of [src/server.ts] each effect has exactly one
    cause: the model is called if and only if the selected message is a
    user message; the log is deleted if and only if the selected message
    is a system message reading ["(clear requested)"]; the log is put back
    if and only if the selected message is a user message and the model
    finishes.  Every turn starts with one read of the log and makes at
    most two further calls. *)
Theorem effects_have_one_cause (env : Env) (msgs : list UIMessage) (w : World) :
  let events := new_events w (Chat.onChatMessage env msgs w).2 in
  ((exists ctx, ModelCall ctx ∈ events) <->
   (exists m, getLatestMessage msgs = Some m /\ msg_role m = user)) /\
  ((exists key, StorageDelete key ∈ events) <->
   (exists m, getLatestMessage msgs = Some m /\ msg_role m = system /\
              extractContent m = lit "(clear requested)")) /\
  ((exists key value, StoragePut key value ∈ events) <->
   (exists m, getLatestMessage msgs = Some m /\ msg_role m = user /\
              is_Some (model env (contextFor env (stored_log w) m w)))) /\
  (exists rest, events = StorageGet HISTORY_KEY :: rest /\ length rest <= 2).
Proof.
  intros events. subst events.
  destruct (onChatMessage_exits env msgs w)
    as [(Hsel & _ & Hev) |
        [(m & Hsel & Hsys & Hclear & _ & Hev) |
         [(m & Hsel & Hother & Hnot & _ & Hev) | (m & Hsel & Hr)]]].
  - rewrite Hev, Hsel. repeat split.
    + intros (ctx & Hin). rewrite !elem_of_cons, elem_of_nil in Hin.
      destruct Hin as [Hin | []]; discriminate Hin.
    + intros (m & Hm & _). discriminate Hm.
    + intros (key & Hin). rewrite !elem_of_cons, elem_of_nil in Hin.
      destruct Hin as [Hin | []]; discriminate Hin.
    + intros (m & Hm & _). discriminate Hm.
    + intros (key & value & Hin). rewrite !elem_of_cons, elem_of_nil in Hin.
      destruct Hin as [Hin | []]; discriminate Hin.
    + intros (m & Hm & _). discriminate Hm.
    + exists []. split; [reflexivity | simpl; lia].
  - rewrite Hev, Hsel. repeat split.
    + intros (ctx & Hin). rewrite !elem_of_cons, elem_of_nil in Hin.
      destruct Hin as [Hin | [Hin | []]]; discriminate Hin.
    + intros (m' & [= <-] & Huser). congruence.
    + intros _. by exists m.
    + intros _. exists HISTORY_KEY. rewrite !elem_of_cons. by right; left.
    + intros (key & value & Hin). rewrite !elem_of_cons, elem_of_nil in Hin.
      destruct Hin as [Hin | [Hin | []]]; discriminate Hin.
    + intros (m' & [= <-] & Huser & _). congruence.
    + eexists. split; [reflexivity | simpl; lia].
  - rewrite Hev, Hsel. repeat split.
    + intros (ctx & Hin). rewrite !elem_of_cons, elem_of_nil in Hin.
      destruct Hin as [Hin | []]; discriminate Hin.
    + intros (m' & [= <-] & Huser). congruence.
    + intros (key & Hin). rewrite !elem_of_cons, elem_of_nil in Hin.
      destruct Hin as [Hin | []]; discriminate Hin.
    + intros (m' & [= <-] & Hsys & Hclear). tauto.
    + intros (key & value & Hin). rewrite !elem_of_cons, elem_of_nil in Hin.
      destruct Hin as [Hin | []]; discriminate Hin.
    + intros (m' & [= <-] & Huser & _). congruence.
    + exists []. split; [reflexivity | simpl; lia].
  - pose proof Hr as (Huser & _ & _). rewrite Hsel.
    destruct (responded_events env w _ m Hr)
      as [(Hnone & Hev) | (value & Hsome & Hev)]; rewrite Hev; repeat split.
    + intros _. by exists m.
    + intros _. eexists. rewrite !elem_of_cons. by right; left.
    + intros (key & Hin). rewrite !elem_of_cons, elem_of_nil in Hin.
      destruct Hin as [Hin | [Hin | []]]; discriminate Hin.
    + intros (m' & [= <-] & Hsys & _). congruence.
    + intros (key & v & Hin). rewrite !elem_of_cons, elem_of_nil in Hin.
      destruct Hin as [Hin | [Hin | []]]; discriminate Hin.
    + intros (m' & [= <-] & _ & Hsome). rewrite Hnone in Hsome.
      by destruct Hsome.
    + eexists. split; [reflexivity | simpl; lia].
    + intros _. by exists m.
    + intros _. eexists. rewrite !elem_of_cons. by right; left.
    + intros (key & Hin). rewrite !elem_of_cons, elem_of_nil in Hin.
      destruct Hin as [Hin | [Hin | [Hin | []]]]; discriminate Hin.
    + intros (m' & [= <-] & Hsys & _). congruence.
    + intros _. by exists m.
    + intros _. eexists _, _. rewrite !elem_of_cons. by right; right; left.
    + eexists. split; [reflexivity | simpl; lia].
Qed.

(** X9. The revision with duplicate detection has no clear command and
    never deletes: no turn issues a storage delete, a log that is stored
    stays stored, and the model is called if and only if the latest user
    message with text of the batch exists and its text is not that of a
    stored user message. *)
Theorem dedup_never_deletes (env : Env) (msgs : list UIMessage) (w : World) :
  let w' := (ChatDedup.onChatMessage env msgs w).2 in
  (forall key, StorageDelete key ∉ new_events w w') /\
  (is_Some (storage w !! HISTORY_KEY) -> is_Some (storage w' !! HISTORY_KEY)) /\
  ((exists ctx, ModelCall ctx ∈ new_events w w') <->
   (exists m, ChatDedup.getLatestUserMessage msgs = Some m /\
              ~ (exists sm, sm ∈ stored_log w /\ role sm = user /\
                            content sm = extractContent m))).
Proof.
  intros w'. subst w'.
  destruct (ChatDedup.getLatestUserMessage msgs) as [m |] eqn:Hsel.
  - destruct (ChatDedup.isDuplicate (stored_log w) (extractContent m)) eqn:Hdup.
    + rewrite (dedup_duplicate env msgs w m Hsel Hdup). unfold emit. simpl.
      rewrite new_events_app. repeat split; try done.
      * intros key Hin. rewrite !elem_of_cons, elem_of_nil in Hin.
        destruct Hin as [Hin | []]; discriminate Hin.
      * intros (ctx & Hin). rewrite !elem_of_cons, elem_of_nil in Hin.
        destruct Hin as [Hin | []]; discriminate Hin.
      * intros (m' & [= <-] & Hfresh). apply isDuplicate_true in Hdup. tauto.
    + rewrite (dedup_fresh env msgs w m Hsel Hdup).
      destruct (getLatestUserMessage_user_text msgs m Hsel) as [Huser Htext].
      pose proof (respond_responded env w m Huser Htext) as Hr.
      destruct (responded_events env w _ m Hr)
        as [(_ & Hev) | (value & _ & Hev)]; rewrite Hev;
        destruct Hr as (_ & _ & [(_ & Hst & _) | (t & s & f & _ & Hst & _)]);
        rewrite Hst; repeat split;
        try (intros key Hin; rewrite !elem_of_cons, elem_of_nil in Hin;
             repeat (destruct Hin as [Hin | Hin]; try discriminate Hin);
             by destruct Hin);
        try done;
        try (intros _; by rewrite lookup_insert_eq);
        try (intros _; eexists; rewrite !elem_of_cons; by right; left);
        try (intros _; exists m; split; [reflexivity |];
             rewrite <- isDuplicate_true; by rewrite Hdup).
  - rewrite (dedup_no_message env msgs w Hsel). unfold emit. simpl.
    rewrite new_events_app. repeat split; try done.
    + intros key Hin. rewrite !elem_of_cons, elem_of_nil in Hin.
      destruct Hin as [Hin | []]; discriminate Hin.
    + intros (ctx & Hin). rewrite !elem_of_cons, elem_of_nil in Hin.
      destruct Hin as [Hin | []]; discriminate Hin.
    + intros (m' & Hm & _). discriminate Hm.
Qed.

Lemma dedup_never_deletes_witness :
  is_Some (storage (ChatDedup.onChatMessage sample_env
                      [inbound system "(clear requested)"]
                      (world_with (numbered_log 5))).2 !! HISTORY_KEY).
Proof.
  destruct (dedup_never_deletes sample_env [inbound system "(clear requested)"]
              (world_with (numbered_log 5))) as (_ & Hkept & _).
  apply Hkept. vm_compute. by eexists.
Defined.

(** X10. A batch without usable text is a no-op in both windowed
    revisions: when the text parts of every inbound message, joined, are
    empty or whitespace only (in particular when the batch is empty), the
    handler answers "No valid message" after reading the log, writes
    nothing and does not call the model. *)
Theorem blank_batch_is_noop (env : Env) (msgs : list UIMessage) (w : World) :
  Forall (fun m => allWhiteSpace (textPartsConcat m)) msgs ->
  Chat.onChatMessage env msgs w =
    (TextResponse "No valid message" 200, emit (StorageGet HISTORY_KEY) w) /\
  ChatDedup.onChatMessage env msgs w =
    (TextResponse "No valid message" 200, emit (StorageGet HISTORY_KEY) w).
Proof.
  intros Hblank.
  assert (Hempty : Forall (fun m => extractContent m = []) msgs).
  { eapply Forall_impl; [exact Hblank |].
    intros m. apply extractContent_empty_iff. }
  split.
  - apply onChatMessage_no_message.
    rewrite (select_None hasText getLatestMessage eq_refl getLatestMessage_snoc).
    eapply Forall_impl; [exact Hempty |]. intros m. apply hasText_false.
  - apply dedup_no_message.
    rewrite (select_None isUserWithText ChatDedup.getLatestUserMessage
               eq_refl getLatestUserMessage_snoc).
    eapply Forall_impl; [exact Hempty |]. intros m Hm.
    unfold isUserWithText. apply andb_false_iff. right. by apply hasText_false.
Qed.

Lemma blank_batch_is_noop_witness :
  Chat.onChatMessage sample_env [blank_message] (world_with (numbered_log 5)) =
    (TextResponse "No valid message" 200,
     emit (StorageGet HISTORY_KEY) (world_with (numbered_log 5))).
Proof.
  apply (blank_batch_is_noop sample_env [blank_message]
           (world_with (numbered_log 5))).
  repeat constructor.
Defined.

(** ** A finished turn *)

(** With a clock that shows something, the user entry carries the time
    read at the start of the turn and the reply the next reading. *)
Lemma respond_finished_stamps (env : Env) (hist : list StoredMessage)
    (m : UIMessage) (w : World) (text : jsstring) :
  extractContent m <> [] ->
  clock env (ticks w) <> [] ->
  model env (contextFor env hist m w) = Some text ->
  let written :=
    trimStoredHistory
      (hist ++ [userEntry m (clock env (ticks w));
                assistantEntry text (clock env (S (ticks w)))]) in
  respond env hist m w =
    (StreamResponse (Some text),
     {| storage := <[HISTORY_KEY := written]> (storage w);
        ticks := S (S (ticks w));
        trace := trace w ++ [ModelCall (contextFor env hist m w);
                             StoragePut HISTORY_KEY written] |}).
Proof.
  intros Htext Hnow Hmodel.
  unfold respond, mbind, Turn_bind, isoNow, streamText, onFinish.
  fold (contextFor env hist m w). rewrite Hmodel.
  unfold mbind, Turn_bind.
  set (w1 := emit _ _).
  destruct (toStoredMessage_with_text env
              (withTimestamp m (clock env (ticks w)))
              (Some (clock env (ticks w))) w1 Htext)
    as (stamp & w2 & -> & _ & _ & Hstamp).
  destruct (Hstamp _ eq_refl Hnow) as [-> ->].
  unfold storage_put, emit, isoNow, mret, Turn_ret. subst w1. simpl.
  rewrite <- app_assoc. reflexivity.
Qed.

Lemma suffix_snoc2_inv (kept hist : list StoredMessage) (u a : StoredMessage) :
  2 <= length kept -> kept `suffix_of` hist ++ [u; a] ->
  exists kept', kept = kept' ++ [u; a] /\ kept' `suffix_of` hist.
Proof.
  intros Hlen [k Hk].
  destruct kept as [| x kept _] using rev_ind; [simpl in Hlen; lia |].
  destruct kept as [| y kept _] using rev_ind;
    [rewrite length_app in Hlen; simpl in Hlen; lia |].
  rewrite <- !app_assoc in Hk. simpl in Hk.
  change [u; a] with ([u] ++ [a]) in Hk.
  change [y; x] with ([y] ++ [x]) in Hk.
  rewrite !app_assoc in Hk.
  apply app_inj_tail in Hk as [Hk ->].
  apply app_inj_tail in Hk as [Hk ->].
  exists kept. rewrite <- app_assoc. split; [reflexivity |].
  by exists k.
Qed.

(** X11. A finished turn of the handler of [src/server.ts] on a history of
    [n] entries leaves [min (n + 2) 100] entries: a suffix of the old
    history followed by the user entry (role user, the extracted text) and
    the assistant entry (the reply verbatim, untrimmed and possibly empty)
    as the two newest.  Up to 98 old entries nothing is dropped; a missing
    key counts as an empty history, so the first turn stores exactly the
    exchange. *)
Theorem finished_turn_appends_exchange
    (env : Env) (msgs : list UIMessage) (w : World)
    (m : UIMessage) (text : jsstring) :
  getLatestMessage msgs = Some m ->
  msg_role m = user ->
  model env (contextFor env (stored_log w) m w) = Some text ->
  exists u a kept,
    let final := stored_log (Chat.onChatMessage env msgs w).2 in
    role u = user /\ content u = extractContent m /\
    role a = assistant /\ content a = text /\
    final = kept ++ [u; a] /\
    kept `suffix_of` stored_log w /\
    length final = (length (stored_log w) + 2) `min` 100 /\
    (length (stored_log w) <= 98 -> kept = stored_log w) /\
    (storage w !! HISTORY_KEY = None -> final = [u; a]).
Proof.
  intros Hsel Hrole Hmodel.
  destruct (onChatMessage_user_finished env msgs w m text Hsel Hrole Hmodel)
    as (stamp & fin & Hfinal).
  set (u := userEntry m stamp). set (a := assistantEntry text fin).
  fold u a in Hfinal.
  assert (Hlen : length (trimStoredHistory (stored_log w ++ [u; a]))
                 = (length (stored_log w) + 2) `min` 100).
  { destruct (decide (length (stored_log w ++ [u; a]) <= MAX_STORED_MESSAGES))
      as [H | H]; rewrite length_app in H; simpl in H;
      unfold MAX_STORED_MESSAGES in H.
    - rewrite trimStoredHistory_short
        by (rewrite length_app; unfold MAX_STORED_MESSAGES; simpl; lia).
      rewrite length_app. simpl. lia.
    - rewrite trimStoredHistory_long
        by (rewrite length_app; unfold MAX_STORED_MESSAGES; simpl; lia).
      rewrite length_drop, length_app. unfold MAX_STORED_MESSAGES. simpl. lia. }
  destruct (suffix_snoc2_inv (trimStoredHistory (stored_log w ++ [u; a]))
              (stored_log w) u a) as (kept & Hkept & Hsuf).
  { rewrite Hlen. lia. }
  { apply trimStoredHistory_suffix. }
  exists u, a, kept. simpl. rewrite Hfinal.
  split; [exact Hrole |]. split; [reflexivity |].
  split; [reflexivity |]. split; [reflexivity |].
  split; [exact Hkept |]. split; [exact Hsuf |].
  split; [exact Hlen |]. split.
  - intros Hshort.
    assert (Hid : trimStoredHistory (stored_log w ++ [u; a]) = stored_log w ++ [u; a]).
    { apply trimStoredHistory_short. rewrite length_app.
      unfold MAX_STORED_MESSAGES. simpl. lia. }
    rewrite Hid in Hkept. by apply app_inv_tail in Hkept.
  - intros Hnone. rewrite Hkept.
    assert (Hlog : stored_log w = []) by (unfold stored_log; by rewrite Hnone).
    rewrite Hlog in Hsuf. apply suffix_nil_inv in Hsuf as ->. reflexivity.
Qed.

Lemma finished_turn_appends_exchange_witness :
  exists u a,
    stored_log (Chat.onChatMessage sample_env [penalty_question] empty_world).2
      = [u; a] /\
    content u = lit "Is it a penalty?" /\ content a = lit "Direct free kick.".
Proof.
  destruct (finished_turn_appends_exchange sample_env [penalty_question]
              empty_world penalty_question (lit "Direct free kick."))
    as (u & a & kept & _ & Hu & _ & Ha & _ & _ & _ & _ & Hfirst).
  - vm_compute. reflexivity.
  - reflexivity.
  - reflexivity.
  - exists u, a. split; [apply Hfirst; reflexivity |].
    split; [exact Hu | exact Ha].
Defined.

(** X12. The whole of a finished turn of [src/server.ts], with a clock
    that shows a non-empty time: the clock is read exactly twice; the
    first reading stamps both the user message sent to the model (last in
    the context) and the stored user entry, the second stamps the stored
    reply; the calls are, in order, one read of the log, one model call and
    one put of the trimmed history. *)
Theorem finished_turn_in_full
    (env : Env) (msgs : list UIMessage) (w : World)
    (m : UIMessage) (text : jsstring) :
  getLatestMessage msgs = Some m ->
  msg_role m = user ->
  clock env (ticks w) <> [] ->
  model env (contextFor env (stored_log w) m w) = Some text ->
  let now := clock env (ticks w) in
  let ctx := contextFor env (stored_log w) m w in
  let written :=
    trimStoredHistory
      (stored_log w ++ [userEntry m now;
                        assistantEntry text (clock env (S (ticks w)))]) in
  Chat.onChatMessage env msgs w =
    (StreamResponse (Some text),
     {| storage := <[HISTORY_KEY := written]> (storage w);
        ticks := S (S (ticks w));
        trace := trace w ++ [StorageGet HISTORY_KEY; ModelCall ctx;
                             StoragePut HISTORY_KEY written] |}) /\
  last ctx = Some (withTimestamp m now).
Proof.
  intros Hsel Hrole Hnow Hmodel now ctx written.
  split; [| apply last_snoc].
  rewrite (onChatMessage_user env msgs w m Hsel Hrole).
  rewrite (respond_finished_stamps env (stored_log w) m
             (emit (StorageGet HISTORY_KEY) w) text).
  - simpl. by rewrite <- app_assoc.
  - by apply (getLatestMessage_has_text msgs).
  - exact Hnow.
  - exact Hmodel.
Qed.

Lemma finished_turn_in_full_witness :
  ticks (Chat.onChatMessage sample_env [penalty_question]
           (world_with (numbered_log 5))).2 = 2 /\
  stored_log (Chat.onChatMessage sample_env [penalty_question]
                (world_with (numbered_log 5))).2 =
    numbered_log 5 ++
      [userEntry penalty_question (clock sample_env 0);
       assistantEntry (lit "Direct free kick.") (clock sample_env 1)].
Proof.
  destruct (finished_turn_in_full sample_env [penalty_question]
              (world_with (numbered_log 5)) penalty_question
              (lit "Direct free kick.")) as [Hrun _].
  - vm_compute. reflexivity.
  - reflexivity.
  - vm_compute. discriminate.
  - reflexivity.
  - rewrite Hrun. split; [reflexivity | vm_compute; reflexivity].
Defined.

(** ** Duplicate detection over two turns *)

Lemma respond_finished_log (env : Env) (hist : list StoredMessage)
    (m : UIMessage) (w : World) (text : jsstring) :
  extractContent m <> [] ->
  model env (contextFor env hist m w) = Some text ->
  exists stamp, userEntry m stamp ∈ stored_log (respond env hist m w).2.
Proof.
  intros Htext Hmodel.
  destruct (respond_finished env hist m w text Htext Hmodel)
    as (stamp & fin & n & ->).
  exists stamp. simpl. rewrite stored_log_insert.
  set (updated := hist ++ [userEntry m stamp; assistantEntry text fin]).
  destruct (decide (length updated <= MAX_STORED_MESSAGES)) as [H | H].
  - rewrite trimStoredHistory_short by done. subst updated.
    rewrite elem_of_app, elem_of_cons. by right; left.
  - rewrite trimStoredHistory_long by lia. subst updated.
    rewrite length_app in H |- *. simpl in H |- *.
    unfold MAX_STORED_MESSAGES in *.
    rewrite drop_app_le by lia.
    rewrite elem_of_app, elem_of_cons. by right; left.
Qed.

(** X13. Duplicate detection across turns, in the revision that has it:
    once a turn on a user message has finished (or was itself rejected as a
    duplicate), the next batch whose latest user message extracts to the
    same text is answered "Duplicate message", with no write and no model
    call, whatever the clock and the model would do. *)
Theorem resent_text_is_duplicate
    (env env' : Env) (msgs msgs' : list UIMessage) (w : World)
    (m m' : UIMessage) :
  ChatDedup.getLatestUserMessage msgs = Some m ->
  is_Some (model env (contextFor env (stored_log w) m w)) ->
  ChatDedup.getLatestUserMessage msgs' = Some m' ->
  extractContent m' = extractContent m ->
  let w1 := (ChatDedup.onChatMessage env msgs w).2 in
  ChatDedup.onChatMessage env' msgs' w1 =
    (TextResponse "Duplicate message" 200, emit (StorageGet HISTORY_KEY) w1).
Proof.
  intros Hsel [text Hmodel] Hsel' Hsame w1.
  apply (dedup_duplicate env' msgs' w1 m' Hsel'). rewrite Hsame.
  destruct (getLatestUserMessage_user_text msgs m Hsel) as [Huser Htext].
  subst w1.
  destruct (ChatDedup.isDuplicate (stored_log w) (extractContent m)) eqn:Hdup.
  - by rewrite (dedup_duplicate env msgs w m Hsel Hdup).
  - rewrite (dedup_fresh env msgs w m Hsel Hdup).
    destruct (respond_finished_log env (stored_log w) m
                (emit (StorageGet HISTORY_KEY) w) text Htext Hmodel)
      as (stamp & Hin).
    apply isDuplicate_true. exists (userEntry m stamp). by repeat split.
Qed.

Lemma resent_text_is_duplicate_witness :
  ChatDedup.onChatMessage sample_env [inbound user " Is it a penalty?  "]
    (ChatDedup.onChatMessage sample_env [penalty_question] empty_world).2 =
  (TextResponse "Duplicate message" 200,
   emit (StorageGet HISTORY_KEY)
     (ChatDedup.onChatMessage sample_env [penalty_question] empty_world).2).
Proof.
  apply (resent_text_is_duplicate sample_env sample_env [penalty_question]
           [inbound user " Is it a penalty?  "] empty_world penalty_question
           (inbound user " Is it a penalty?  ")).
  - vm_compute. reflexivity.
  - vm_compute. by eexists.
  - vm_compute. reflexivity.
  - vm_compute. reflexivity.
Defined.

(** ** The two windowed revisions side by side *)




(** ** Invariants over any number of turns *)

Lemma chat_step_bounded (env : Env) (msgs : list UIMessage) (w : World) :
  length (stored_log w) <= 100 ->
  length (stored_log (Chat.onChatMessage env msgs w).2) <= 100.
Proof.
  intros Hw.
  destruct (onChatMessage_cases env msgs w)
    as [[Hst _] | [[Hst _] | (m & _ & _ & _ & [(_ & Hst & _) | (t & s & f & _ & Hst & _)])]].
  - by rewrite (stored_log_storage _ _ Hst).
  - unfold stored_log. rewrite Hst, lookup_delete_eq. simpl. lia.
  - by rewrite (stored_log_storage _ _ Hst).
  - unfold stored_log. rewrite Hst, lookup_insert_eq. simpl.
    apply trimStoredHistory_length.
Qed.

Lemma dedup_step_bounded (env : Env) (msgs : list UIMessage) (w : World) :
  length (stored_log w) <= 100 ->
  length (stored_log (ChatDedup.onChatMessage env msgs w).2) <= 100.
Proof.
  intros Hw.
  destruct (dedup_cases env msgs w)
    as [[Hst _] | (m & _ & _ & _ & [(_ & Hst & _) | (t & s & f & _ & Hst & _)])].
  - by rewrite (stored_log_storage _ _ Hst).
  - by rewrite (stored_log_storage _ _ Hst).
  - unfold stored_log. rewrite Hst, lookup_insert_eq. simpl.
    apply trimStoredHistory_length.
Qed.

(** X15. The storage bound is an invariant of the session: starting from
    a log of at most 100 entries (in particular from an empty storage),
    after any sequence of inbound batches handled one after the other the
    stored log still has at most 100 entries, in both windowed revisions,
    whatever the clock shows and the model answers. *)
Theorem session_log_stays_bounded
    (env : Env) (batches : list (list UIMessage)) (w : World) :
  length (stored_log w) <= 100 ->
  length (stored_log (run_turns (Chat.onChatMessage env) batches w).2) <= 100 /\
  length (stored_log (run_turns (ChatDedup.onChatMessage env) batches w).2) <= 100.
Proof.
  intros Hw. unfold run_turns. split.
  - apply (mapTurn_preserves (Chat.onChatMessage env)
             (fun w0 => length (stored_log w0) <= 100)); [| exact Hw].
    intros msgs w0. apply chat_step_bounded.
  - apply (mapTurn_preserves (ChatDedup.onChatMessage env)
             (fun w0 => length (stored_log w0) <= 100)); [| exact Hw].
    intros msgs w0. apply dedup_step_bounded.
Qed.

Lemma session_log_stays_bounded_witness :
  length (stored_log
            (run_turns (Chat.onChatMessage sample_env)
               [[penalty_question]; [inbound system "(clear requested)"];
                example_batch; [penalty_question]]
               (world_with (numbered_log 99))).2) <= 100.
Proof.
  apply (session_log_stays_bounded sample_env
           [[penalty_question]; [inbound system "(clear requested)"];
            example_batch; [penalty_question]]
           (world_with (numbered_log 99))).
  vm_compute. lia.
Defined.

Lemma user_entries_suffix (kept log : list StoredMessage) :
  kept `suffix_of` log -> userEntriesHaveText log -> userEntriesHaveText kept.
Proof.
  intros [k ->]. unfold userEntriesHaveText. rewrite Forall_app. tauto.
Qed.

Lemma responded_user_entries (env : Env) (w w' : World) (m : UIMessage) :
  responded env w w' m ->
  userEntriesHaveText (stored_log w) -> userEntriesHaveText (stored_log w').
Proof.
  intros (Hrole & Htext & [(_ & Hst & _) | (t & s & f & _ & Hst & _)]) Hw.
  - by rewrite (stored_log_storage _ _ Hst).
  - unfold stored_log at 1. rewrite Hst, lookup_insert_eq. simpl.
    eapply user_entries_suffix; [apply trimStoredHistory_suffix |].
    unfold userEntriesHaveText. rewrite Forall_app. split; [exact Hw |].
    constructor; [| constructor; [| constructor]]; simpl.
    + intros _. split; [exact Htext | apply extractContent_trim].
    + discriminate.
Qed.

(** X16. The text of user entries is an invariant of the session: if
    every stored user entry has a non-empty text without whitespace at
    either end, so it is after any sequence of turns, in both windowed
    revisions: the handler only ever adds the trimmed, non-empty text of the
    selected message as a user entry. *)
Theorem session_user_entries_have_text
    (env : Env) (batches : list (list UIMessage)) (w : World) :
  userEntriesHaveText (stored_log w) ->
  userEntriesHaveText
    (stored_log (run_turns (Chat.onChatMessage env) batches w).2) /\
  userEntriesHaveText
    (stored_log (run_turns (ChatDedup.onChatMessage env) batches w).2).
Proof.
  intros Hw. unfold run_turns. split.
  - apply (mapTurn_preserves (Chat.onChatMessage env)
             (fun w0 => userEntriesHaveText (stored_log w0))); [| exact Hw].
    intros msgs w0 Hw0.
    destruct (onChatMessage_cases env msgs w0)
      as [[Hst _] | [[Hst _] | (m & _ & Hr)]].
    + by rewrite (stored_log_storage _ _ Hst).
    + unfold stored_log. rewrite Hst, lookup_delete_eq. constructor.
    + by apply (responded_user_entries env w0 _ m).
  - apply (mapTurn_preserves (ChatDedup.onChatMessage env)
             (fun w0 => userEntriesHaveText (stored_log w0))); [| exact Hw].
    intros msgs w0 Hw0.
    destruct (dedup_cases env msgs w0) as [[Hst _] | (m & _ & Hr)].
    + by rewrite (stored_log_storage _ _ Hst).
    + by apply (responded_user_entries env w0 _ m).
Qed.

Lemma session_user_entries_have_text_witness :
  userEntriesHaveText
    (stored_log
       (run_turns (Chat.onChatMessage sample_env)
          [[inbound user "  Was it offside? "]; example_batch]
          empty_world).2).
Proof.
  apply (session_user_entries_have_text sample_env
           [[inbound user "  Was it offside? "]; example_batch] empty_world).
  vm_compute. constructor.
Defined.

(** ** The first revision *)

Lemma stampedFrom_weaken (env : Env) (lo lo' hi hi' : nat) (m s : UIMessage) :
  lo' <= lo -> hi <= hi' -> stampedFrom env lo hi m s -> stampedFrom env lo' hi' m s.
Proof.
  intros Hlo Hhi [H | (Hno & n & Hn & ->)]; [by left |].
  right. split; [exact Hno |]. exists n. split; [lia | reflexivity].
Qed.

Lemma mapTurn_assignCreatedAt (env : Env) (msgs : list UIMessage) (w : World) :
  let r := mapTurn (ChatFirst.assignCreatedAt env) msgs w in
  storage r.2 = storage w /\ trace r.2 = trace w /\
  ticks r.2 = ticks w + length (filter (fun m => ~ hasCreatedAt m) msgs) /\
  Forall2 (stampedFrom env (ticks w) (ticks r.2)) msgs r.1.
Proof.
  revert w. induction msgs as [| x msgs IH]; intros w.
  - simpl. repeat split; [lia | constructor].
  - rewrite mapTurn_cons. simpl.
    destruct (assignCreatedAt_cases env x w) as [[Hhas ->] | [Hno ->]]; simpl.
    + destruct (IH w) as (Hst & Htr & Hticks & Hall).
      rewrite filter_cons_False by tauto.
      repeat split; try done.
      constructor; [by left | exact Hall].
    + set (w1 := {| storage := storage w; ticks := S (ticks w); trace := trace w |}).
      destruct (IH w1) as (Hst & Htr & Hticks & Hall). simpl in *.
      rewrite filter_cons_True by done. simpl.
      split; [exact Hst |]. split; [exact Htr |]. split; [lia |].
      constructor.
      * right. split; [exact Hno |]. exists (ticks w). split; [lia | reflexivity].
      * eapply Forall2_impl; [exact Hall |].
        intros m s. apply stampedFrom_weaken; lia.
Qed.

Lemma stampedFrom_same_text (env : Env) (lo hi : nat) (msgs stamped : list UIMessage) :
  Forall2 (stampedFrom env lo hi) msgs stamped ->
  msg_role <$> stamped = msg_role <$> msgs /\
  msg_parts <$> stamped = msg_parts <$> msgs.
Proof.
  induction 1 as [| m s msgs stamped Hms _ [IHr IHp]]; [done |].
  rewrite !fmap_cons, IHr, IHp.
  by destruct Hms as [[_ ->] | (_ & n & _ & ->)].
Qed.

(** X17. The first revision keeps no history and no window: it never
    touches the storage, and it calls the model exactly once with the whole
    inbound batch, message for message with the same roles and parts (hence
    the same extracted texts), however long the batch is; the response
    streams what the model returns. *)
Theorem first_revision_sends_whole_batch
    (env : Env) (msgs : list UIMessage) (w : World) :
  let r := ChatFirst.onChatMessage env msgs w in
  let stamped := r.1.1 in
  storage r.2 = storage w /\
  new_events w r.2 = [ModelCall stamped] /\
  r.1.2 = StreamResponse (model env stamped) /\
  length stamped = length msgs /\
  msg_role <$> stamped = msg_role <$> msgs /\
  msg_parts <$> stamped = msg_parts <$> msgs /\
  extractContent <$> stamped = extractContent <$> msgs.
Proof.
  unfold ChatFirst.onChatMessage, mbind, Turn_bind, streamText, mret, Turn_ret.
  destruct (mapTurn_assignCreatedAt env msgs w) as (Hst & Htr & _ & Hall).
  destruct (mapTurn (ChatFirst.assignCreatedAt env) msgs w) as [stamped w1].
  simpl in *.
  destruct (stampedFrom_same_text env _ _ msgs stamped Hall) as [Hroles Hparts].
  split; [exact Hst |].
  split; [unfold new_events; simpl; by rewrite Htr, drop_app_length |].
  split; [reflexivity |].
  split; [symmetry; by eapply Forall2_length |].
  split; [exact Hroles |]. split; [exact Hparts |].
  apply (f_equal (fmap (fun ps : option (list Part) =>
                          trim (match ps with
                                | Some parts => foldl extractContent_step [] parts
                                | None => []
                                end)))) in Hparts.
  rewrite <- !list_fmap_compose in Hparts. exact Hparts.
Qed.

Lemma stampedFrom_all_stamped (env : Env) (lo hi : nat) (msgs stamped : list UIMessage) :
  Forall hasCreatedAt msgs ->
  Forall2 (stampedFrom env lo hi) msgs stamped ->
  stamped = msgs /\ filter (fun m => ~ hasCreatedAt m) msgs = [].
Proof.
  intros Hhas Hall. induction Hall as [| m s msgs stamped Hms _ IH];
    [done |].
  apply Forall_cons in Hhas as [Hm Hhas]. destruct (IH Hhas) as [-> Hnil].
  rewrite filter_cons_False by tauto.
  split; [| exact Hnil].
  by destruct Hms as [[_ ->] | [Hno _]].
Qed.

Lemma first_revision_stamps_missing_aux (env : Env) (msgs : list UIMessage)
    (w : World) :
  Forall2 (stampedFrom env (ticks w) (ticks (ChatFirst.onChatMessage env msgs w).2))
    msgs (ChatFirst.onChatMessage env msgs w).1.1.
Proof.
  unfold ChatFirst.onChatMessage, mbind, Turn_bind, streamText, mret, Turn_ret.
  destruct (mapTurn_assignCreatedAt env msgs w) as (_ & _ & _ & Hall).
  by destruct (mapTurn (ChatFirst.assignCreatedAt env) msgs w).
Qed.

(** X18. What the first revision does to the batch before sending it: a
    message whose metadata has a non-empty createdAt goes through as it
    is; any other keeps its role and parts and gets as createdAt a reading
    of the clock taken during this call.  The clock is read once per
    message lacking a createdAt and not at all when every message has
    one, in which case the batch is sent unchanged. *)
Theorem first_revision_stamps_missing
    (env : Env) (msgs : list UIMessage) (w : World) :
  let r := ChatFirst.onChatMessage env msgs w in
  ticks r.2 = ticks w + length (filter (fun m => ~ hasCreatedAt m) msgs) /\
  Forall2 (stampedFrom env (ticks w) (ticks r.2)) msgs r.1.1 /\
  (Forall hasCreatedAt msgs -> r.1.1 = msgs /\ ticks r.2 = ticks w).
Proof.
  unfold ChatFirst.onChatMessage, mbind, Turn_bind, streamText, mret, Turn_ret.
  destruct (mapTurn_assignCreatedAt env msgs w) as (_ & _ & Hticks & Hall).
  destruct (mapTurn (ChatFirst.assignCreatedAt env) msgs w) as [stamped w1].
  simpl in *.
  split; [exact Hticks |]. split; [exact Hall |].
  intros Hhas.
  destruct (stampedFrom_all_stamped env _ _ msgs stamped Hhas Hall) as [-> Hnil].
  rewrite Hnil in Hticks. simpl in Hticks. split; [reflexivity | lia].
Qed.

Lemma first_revision_stamps_missing_witness :
  (ChatFirst.onChatMessage sample_env [stamped_question; stamped_question]
     empty_world).1.1 = [stamped_question; stamped_question] /\
  ticks (ChatFirst.onChatMessage sample_env [stamped_question; stamped_question]
           empty_world).2 = 0.
Proof.
  destruct (first_revision_stamps_missing sample_env
              [stamped_question; stamped_question] empty_world)
    as (_ & _ & Hsame).
  apply Hsame.
  repeat constructor; exists ISO_SAMPLE; (split; [reflexivity | discriminate]).
Defined.

(** X19. With a clock that never shows an empty string, every message
    the first revision sends carries a createdAt, and the stamping is
    idempotent: handling the stamped batch again (under any clock) sends
    it unchanged and reads no clock. *)
Theorem first_revision_stamping_idempotent
    (env env' : Env) (msgs : list UIMessage) (w w' : World) :
  (forall n, clock env n <> []) ->
  let stamped := (ChatFirst.onChatMessage env msgs w).1.1 in
  Forall hasCreatedAt stamped /\
  (ChatFirst.onChatMessage env' stamped w').1.1 = stamped /\
  ticks (ChatFirst.onChatMessage env' stamped w').2 = ticks w'.
Proof.
  intros Hclock stamped.
  assert (Hhas : Forall hasCreatedAt stamped).
  { pose proof (first_revision_stamps_missing_aux env msgs w) as Hall.
    fold stamped in Hall.
    induction Hall as [| m s ms ss Hms _ IH]; constructor; [| exact IH].
    destruct Hms as [[Hm ->] | (_ & n & _ & ->)]; [exact Hm |].
    exists (clock env n). split; [reflexivity | apply Hclock]. }
  split; [exact Hhas |].
  unfold ChatFirst.onChatMessage, mbind, Turn_bind, streamText, mret, Turn_ret.
  destruct (mapTurn_assignCreatedAt env' stamped w') as (_ & _ & Hticks & Hall).
  destruct (mapTurn (ChatFirst.assignCreatedAt env') stamped w') as [again w1].
  simpl in *.
  destruct (stampedFrom_all_stamped env' _ _ stamped again Hhas Hall) as [-> Hnil].
  rewrite Hnil in Hticks. simpl in Hticks. split; [reflexivity | lia].
Qed.

Lemma first_revision_stamping_idempotent_witness :
  (ChatFirst.onChatMessage sample_env
     (ChatFirst.onChatMessage sample_env example_batch empty_world).1.1
     empty_world).1.1
  = (ChatFirst.onChatMessage sample_env example_batch empty_world).1.1.
Proof.
  destruct (first_revision_stamping_idempotent sample_env sample_env
              example_batch empty_world empty_world) as (_ & Hsame & _).
  - intros n. vm_compute. discriminate.
  - exact Hsame.
Defined.

(** ** Memory from one turn to the next *)

Lemma trimStoredHistory_keeps_exchange (hist : list StoredMessage)
    (u a : StoredMessage) :
  exists kept,
    trimStoredHistory (hist ++ [u; a]) = kept ++ [u; a] /\
    kept `suffix_of` hist.
Proof.
  destruct (decide (length (hist ++ [u; a]) <= MAX_STORED_MESSAGES)) as [H | H].
  - exists hist. by rewrite trimStoredHistory_short.
  - rewrite trimStoredHistory_long by lia.
    rewrite length_app in H |- *. simpl in H |- *.
    unfold MAX_STORED_MESSAGES in *.
    exists (drop (length hist + 2 - 100) hist).
    split; [apply drop_app_le; lia | apply suffix_drop].
Qed.

Lemma getRecentMessages_keeps_exchange (kept : list StoredMessage)
    (u a : StoredMessage) :
  exists recent,
    getRecentMessages (kept ++ [u; a]) = recent ++ [u; a] /\
    recent `suffix_of` kept /\ length recent <= 13.
Proof.
  destruct (decide (length (kept ++ [u; a]) <= MAX_MESSAGES_IN_CONTEXT)) as [H | H].
  - exists kept. rewrite getRecentMessages_short by done.
    rewrite length_app in H. simpl in H. unfold MAX_MESSAGES_IN_CONTEXT in H.
    repeat split; [done | lia].
  - rewrite getRecentMessages_long by lia.
    rewrite length_app in H |- *. simpl in H |- *.
    unfold MAX_MESSAGES_IN_CONTEXT in *.
    exists (drop (length kept + 2 - 15) kept).
    split; [apply drop_app_le; lia |].
    split; [apply suffix_drop | rewrite length_drop; lia].
Qed.

(** X20. The agent remembers the last exchange: after a finished turn on
    the user message [m1] answered by [text1], whenever the next turn calls
    the model, the context it sends ends with the stored user entry of
    [m1] (extracting to the text of [m1]), the stored reply (whose part is
    [text1]) and the new stamped user message, after at most 13 older
    entries. *)
Theorem next_turn_sees_last_exchange
    (env env' : Env) (msgs1 msgs2 : list UIMessage) (w : World)
    (m1 : UIMessage) (text1 : jsstring) (ctx : list UIMessage) :
  getLatestMessage msgs1 = Some m1 ->
  msg_role m1 = user ->
  model env (contextFor env (stored_log w) m1 w) = Some text1 ->
  let w1 := (Chat.onChatMessage env msgs1 w).2 in
  ModelCall ctx ∈ new_events w1 (Chat.onChatMessage env' msgs2 w1).2 ->
  exists older u a m2,
    ctx = older ++ [toUIMessage u; toUIMessage a;
                    withTimestamp m2 (clock env' (ticks w1))] /\
    length older <= 13 /\
    getLatestMessage msgs2 = Some m2 /\
    role u = user /\ content u = extractContent m1 /\
    extractContent (toUIMessage u) = extractContent m1 /\
    role a = assistant /\ content a = text1 /\
    msg_parts (toUIMessage a) =
      Some [ {| part_type := lit "text"; part_text := Some text1 |} ].
Proof.
  intros Hsel1 Hrole1 Hmodel1 w1 Hin.
  destruct (onChatMessage_user_finished env msgs1 w m1 text1 Hsel1 Hrole1 Hmodel1)
    as (stamp & fin & Hlog).
  fold w1 in Hlog.
  destruct (trimStoredHistory_keeps_exchange (stored_log w)
              (userEntry m1 stamp) (assistantEntry text1 fin))
    as (kept & Hkept & _).
  rewrite Hkept in Hlog.
  destruct (getRecentMessages_keeps_exchange kept
              (userEntry m1 stamp) (assistantEntry text1 fin))
    as (recent & Hrecent & _ & Hlen).
  destruct (onChatMessage_cases env' msgs2 w1)
    as [[_ Hev] | [[_ Hev] | (m2 & Hsel2 & Hr)]].
  - rewrite Hev, !elem_of_cons, elem_of_nil in Hin.
    destruct Hin as [Hin | []]; discriminate Hin.
  - rewrite Hev, !elem_of_cons, elem_of_nil in Hin.
    destruct Hin as [Hin | [Hin | []]]; discriminate Hin.
  - pose proof (responded_context env' w1 _ m2 ctx Hr Hin) as ->.
    exists (toUIMessage <$> recent), (userEntry m1 stamp),
           (assistantEntry text1 fin), m2.
    split.
    { unfold contextFor. rewrite Hlog, Hrecent, fmap_app, <- app_assoc.
      reflexivity. }
    split; [by rewrite length_fmap |].
    split; [exact Hsel2 |]. split; [exact Hrole1 |]. split; [reflexivity |].
    split; [| by repeat split].
    rewrite extractContent_toUIMessage. apply extractContent_trim.
Qed.

Lemma next_turn_sees_last_exchange_witness :
  exists older u a m2,
    contextFor sample_env
      (stored_log (Chat.onChatMessage sample_env [penalty_question] empty_world).2)
      (inbound user "And a red card?")
      (Chat.onChatMessage sample_env [penalty_question] empty_world).2
    = older ++ [toUIMessage u; toUIMessage a;
                withTimestamp m2 (clock sample_env 2)] /\
    content u = lit "Is it a penalty?" /\
    content a = lit "Direct free kick.".
Proof.
  destruct (next_turn_sees_last_exchange sample_env sample_env
              [penalty_question] [inbound user "And a red card?"] empty_world
              penalty_question (lit "Direct free kick.")
              (contextFor sample_env
                 (stored_log (Chat.onChatMessage sample_env [penalty_question]
                                empty_world).2)
                 (inbound user "And a red card?")
                 (Chat.onChatMessage sample_env [penalty_question] empty_world).2))
    as (older & u & a & m2 & Hctx & _ & _ & _ & Hu & _ & _ & Ha & _).
  - vm_compute. reflexivity.
  - reflexivity.
  - reflexivity.
  - vm_compute. apply list_elem_of_further, list_elem_of_here.
  - exists older, u, a, m2. split; [exact Hctx |]. split; [exact Hu | exact Ha].
Defined.
